(** * nextjs-issue-tracker: the history backfill endpoint

    A shallow embedding of [src/pages/api/history.ts]: the paginated
    Issue Fetcher ([getIssues]), the Daily Aggregator (the loop of
    [handler] over the [dates] object) and the request handler with its
    error mapping.  JavaScript numbers that only ever hold counts and
    time values are integers ([Z]); a [Date] is its time value in
    milliseconds since the epoch; the [dates] object is an association
    list in property-insertion order, which is the order [for ... in]
    enumerates string keys that are not array indices.  The tracker is
    the finite sequence of pages it serves, the clock and the [Day] table
    are explicit arguments of the handler. *)

From Stdlib Require Import ZArith List Bool Ascii String Lia Permutation.
Import ListNotations.

Local Open Scope Z_scope.

(** ** The calendar helpers of [utils] *)

Module Calendar.

Definition msPerDay : Z := 86400000.

(** Largest magnitude of a valid [Date] time value. *)
Definition maxTime : Z := 8640000000000000.

Definition valid_time (t : Z) : Prop := - maxTime <= t <= maxTime.

(** Day number (days since 1970-01-01, UTC) of a time value. *)
Definition day_of (t : Z) : Z := t / msPerDay.

(** Year, month and day of month of a day number in the proleptic
    Gregorian calendar.  Days are counted in eras of 400 years that
    start on a 1st of March; a day of the era is split into its century,
    its four-year cycle, its year (March to February) and its day of that
    year. *)
Definition era_of (z : Z) : Z := (z + 719468) / 146097.
Definition doe_of (z : Z) : Z := (z + 719468) mod 146097.
Definition century_of (doe : Z) : Z := Z.min 3 (doe / 36524).
Definition cycle_of (doe : Z) : Z := (doe - century_of doe * 36524) / 1461.
Definition doq_of (doe : Z) : Z := (doe - century_of doe * 36524) mod 1461.
Definition yoq_of (doe : Z) : Z := Z.min 3 (doq_of doe / 365).
Definition yoe_of (doe : Z) : Z :=
  century_of doe * 100 + cycle_of doe * 4 + yoq_of doe.
Definition doy_of (doe : Z) : Z := doq_of doe - yoq_of doe * 365.
Definition mp_of (doe : Z) : Z := (5 * doy_of doe + 2) / 153.
Definition dom_of (doe : Z) : Z :=
  doy_of doe - (153 * mp_of doe + 2) / 5 + 1.
Definition month_of (doe : Z) : Z :=
  let mp := mp_of doe in if mp <? 10 then mp + 3 else mp - 9.

Definition civil_from_days (z : Z) : Z * Z * Z :=
  let doe := doe_of z in
  let m := month_of doe in
  let y := yoe_of doe + era_of z * 400 in
  ((if m <=? 2 then y + 1 else y), m, dom_of doe).

(** The inverse direction, used to show that distinct days get
    distinct dates. *)
Definition days_from_civil (ymd : Z * Z * Z) : Z :=
  let '(y0, m, d) := ymd in
  let y := if m <=? 2 then y0 - 1 else y0 in
  let era := y / 400 in
  let yoe := y mod 400 in
  let mp := if 2 <? m then m - 3 else m + 9 in
  let doy := (153 * mp + 2) / 5 + d - 1 in
  let doe := yoe * 365 + yoe / 4 - yoe / 100 + doy in
  era * 146097 + doe - 719468.

Definition digit (n : Z) : ascii :=
  match n with
  | 0 => "0" | 1 => "1" | 2 => "2" | 3 => "3" | 4 => "4"
  | 5 => "5" | 6 => "6" | 7 => "7" | 8 => "8" | _ => "9"
  end%char.

Definition pad2 (n : Z) (rest : string) : string :=
  String (digit (n / 10)) (String (digit (n mod 10)) rest).

Definition pad4 (n : Z) (rest : string) : string :=
  pad2 (n / 100) (pad2 (n mod 100) rest).

Definition pad6 (n : Z) (rest : string) : string :=
  pad2 (n / 10000) (pad4 (n mod 10000) rest).

(** ISO 8601 year: four digits for 0..9999, otherwise a sign and six
    digits (the expanded years of [Date.prototype.toISOString]). *)
Definition year_string (y : Z) (rest : string) : string :=
  if (0 <=? y) && (y <=? 9999) then pad4 y rest
  else if y <? 0 then String "-"%char (pad6 (- y) rest)
  else String "+"%char (pad6 y rest).

Definition format_date (ymd : Z * Z * Z) : string :=
  let '(y, m, d) := ymd in
  year_string y (String "-"%char (pad2 m (String "-"%char (pad2 d EmptyString)))).

Definition isoDate_of_day (z : Z) : string := format_date (civil_from_days z).

(** Modelled from the spec: [isoDate] of [utils] is not among the
    sources; the spec's Day Record key is the "calendar date (ISO 8601,
    no time component)" of a timestamp, here its UTC date. *)
Definition isoDate (t : Z) : string := isoDate_of_day (day_of t).

(** [lo, lo+1, ..., lo+n-1] *)
Fixpoint zrange (lo : Z) (n : nat) : list Z :=
  match n with
  | O => []
  | S n' => lo :: zrange (lo + 1) n'
  end.

(** The day numbers of the inclusive range from the day of [start]
    to the day of [now]; empty when [now] lies on an earlier day. *)
Definition days_until (now start : Z) : list Z :=
  zrange (day_of start) (Z.to_nat (day_of now - day_of start + 1)).

(** Modelled from the spec: [eachDayUntilToday] of [utils] is not
    among the sources; the spec asks for "every calendar date in
    [start date, today] (inclusive, one entry per day, no gaps)".
    Each day is returned as the [Date] of its UTC midnight; the clock
    reading [now] that fixes "today" is an explicit argument. *)
Definition eachDayUntilToday (now start : Z) : list Z :=
  map (fun z => z * msPerDay) (days_until now start).

End Calendar.

Import Calendar.

(** ** Plain JavaScript objects with string keys *)

Module JsObject.

Section Obj.
Context {V : Type}.

(** Own enumerable properties in insertion order.  The keys used by
    the handler are ISO dates, never array indices, so this is the
    order of [for ... in], [Object.keys] and [Object.entries]. *)
Definition obj : Type := list (string * V).

Fixpoint get (k : string) (o : obj) : option V :=
  match o with
  | [] => None
  | (k', v) :: o' => if String.eqb k k' then Some v else get k o'
  end.

(** [o[k] = v]: an existing property keeps its place, a new one is
    appended. *)
Fixpoint set (k : string) (v : V) (o : obj) : obj :=
  match o with
  | [] => [(k, v)]
  | (k', v') :: o' =>
      if String.eqb k k' then (k, v) :: o' else (k', v') :: set k v o'
  end.

(** In-place update of the value stored under [k].  The handler
    only indexes [dates] with the keys it is enumerating, so the
    property is always there; an absent key leaves [o] as it is. *)
Definition modify (k : string) (f : V -> V) (o : obj) : obj :=
  match get k o with
  | Some v => set k (f v) o
  | None => o
  end.

Definition keys (o : obj) : list string := map fst o.

Definition entries (o : obj) : list (string * V) := o.

Definition fromEntries (es : list (string * V)) : obj :=
  fold_left (fun o e => set (fst e) (snd e) o) es [].
End Obj.

Arguments obj V : clear implicits.

End JsObject.

Import JsObject.

(** ** Data model *)

(** What the fetcher keeps of an issue: [created_at] and [closed_at]
    ([null] while the issue is open), as time values. *)
Record Issue : Type := mkIssue {
  created_at : Z;
  closed_at : option Z
}.

(** One item of a raw page of [listForRepo]; [pull_request] is true
    when the item carries a [pull_request] member. *)
Record RawItem : Type := mkRawItem {
  raw_created_at : Z;
  raw_closed_at : option Z;
  pull_request : bool
}.

Record Day : Type := mkDay {
  totalOpened : Z;
  totalClosed : Z
}.

(** [xs.length] *)
Definition len {A : Type} (xs : list A) : Z := Z.of_nat (List.length xs).

(** ** Issue Fetcher: [getIssues] *)

Module Fetcher.

(** [hardLimit]: a number, or [Infinity] when no ceiling is given. *)
Inductive Limit : Type :=
| Finite (n : Z)
| Infinity.

Definition hardLimit_of (hardLimitPage : option Z) : Limit :=
  match hardLimitPage with
  | Some n => Finite n
  | None => Infinity
  end.

(** [page <= hardLimit] *)
Definition within (page : Z) (hardLimit : Limit) : bool :=
  match hardLimit with
  | Finite n => page <=? n
  | Infinity => true
  end.

(** The [for ... of] loop over the filtered page: every issue is
    put in front of the ones collected so far ([unshift]). *)
Definition unshift_page (issuesPage : list RawItem) (issues : list Issue)
  : list Issue :=
  fold_left
    (fun issues issue =>
       if pull_request issue then issues
       else mkIssue (raw_created_at issue) (raw_closed_at issue) :: issues)
    issuesPage issues.

(** The [while] loop.  [upstream] lists the pages the tracker serves
    for the page numbers [page], [page + 1], ...; past its end every
    page is empty.  [log] records the page numbers requested so far,
    oldest first. *)
Fixpoint getIssues_loop (upstream : list (list RawItem)) (hardLimit : Limit)
  (page : Z) (issues : list Issue) (log : list Z) : list Issue * list Z :=
  if within page hardLimit then
    match upstream with
    | [] => (issues, log ++ [page])
    | issuesPage :: rest =>
        if len issuesPage =? 0 then (issues, log ++ [page])
        else
          let issuesPage := filter (fun i => negb (pull_request i)) issuesPage in
          getIssues_loop rest hardLimit (page + 1)
            (unshift_page issuesPage issues) (log ++ [page])
    end
  else (issues, log).

Definition getIssues_run (upstream : list (list RawItem))
  (hardLimitPage : option Z) : list Issue * list Z :=
  getIssues_loop upstream (hardLimit_of hardLimitPage) 1 [] [].

Definition getIssues (upstream : list (list RawItem))
  (hardLimitPage : option Z) : list Issue :=
  fst (getIssues_run upstream hardLimitPage).

(** The page numbers [getIssues] asks the tracker for, in order. *)
Definition requested_pages (upstream : list (list RawItem))
  (hardLimitPage : option Z) : list Z :=
  snd (getIssues_run upstream hardLimitPage).

End Fetcher.

(** ** Daily Aggregator: the loop of [handler] over [dates] *)

Module Aggregator.

(** [new Date("2016-10-05")] *)
Definition FIRST_COMMIT_DATE : Z := 1475625600000.

Definition zeroDay : Day := mkDay 0 0.

Definition initial_dates (now start : Z) : obj Day :=
  fromEntries
    (map (fun date => (isoDate date, zeroDay)) (eachDayUntilToday now start)).

Definition issuesOpened (issues : list Issue) (date : string) : list Issue :=
  filter (fun i => String.eqb (isoDate (created_at i)) date) issues.

Definition issuesClosed (issues : list Issue) (date : string) : list Issue :=
  filter
    (fun i =>
       match closed_at i with
       | Some c => String.eqb (isoDate c) date
       | None => false
       end)
    issues.

Record LoopState : Type := mkLoop {
  openedAccumulator : Z;
  closedAccumulator : Z;
  dates : obj Day
}.

Definition loop_body (issues : list Issue) (st : LoopState) (date : string)
  : LoopState :=
  let opened := issuesOpened issues date in
  let closed := issuesClosed issues date in
  let closedAcc := closedAccumulator st + len closed in
  let openedAcc :=
    if len opened =? 0 then openedAccumulator st
    else openedAccumulator st + len opened in
  let openedAcc := openedAcc - len closed in
  mkLoop openedAcc closedAcc
    (modify date
       (fun day =>
          mkDay (totalOpened day + openedAcc) (totalClosed day + closedAcc))
       (dates st)).

(** [for (const date in dates) { ... }] from accumulators at 0. *)
Definition run_loop (issues : list Issue) (dates0 : obj Day) : LoopState :=
  fold_left (loop_body issues) (keys dates0) (mkLoop 0 0 dates0).

(** Lines 36-61 of the handler, with the start date and the clock
    reading as arguments. *)
Definition aggregate (now start : Z) (issues : list Issue) : obj Day :=
  dates (run_loop issues (initial_dates now start)).

End Aggregator.

(** ** Persistence Gateway *)

Module Gateway.

Inductive Exn : Type :=
| PrismaClientKnownRequestError (code : string)
| OtherError.

(** The [Day] table: rows keyed by their unique [date]. *)
Definition Store : Type := list (string * Day).

Definition has_date (date : string) (db : Store) : bool :=
  existsb (fun row => String.eqb (fst row) date) db.

(** Modelled from the spec: the Prisma client of [lib/prisma] and its
    schema are not among the sources.  [createDay] inserts one row and
    "insertion of a duplicate date is a constraint violation", reported
    as the known request error P2002. *)
Definition create (row : string * Day) (db : Store) : Exn + Store :=
  if has_date (fst row) db
  then inl (PrismaClientKnownRequestError "P2002")
  else inr (db ++ [row]).

Fixpoint create_all (rows : list (string * Day)) (db : Store) : Exn + Store :=
  match rows with
  | [] => inr db
  | row :: rows' =>
      match create row db with
      | inl e => inl e
      | inr db' => create_all rows' db'
      end
  end.

(** Modelled from the spec: [$transaction] over the batch of creates
    "is all-or-nothing (atomic): if any record in the batch violates the
    uniqueness constraint, none are persisted".  The creates run in
    order on a working copy that replaces the table only when all of
    them succeed. *)
Definition transaction (rows : list (string * Day)) (db : Store)
  : Store * option Exn :=
  match create_all rows db with
  | inr db' => (db', None)
  | inl e => (db, Some e)
  end.

End Gateway.

(** ** The request handler *)

Module History.

Import Fetcher Aggregator Gateway.

Record Body : Type := mkBody {
  secret : option string;
  owner : option string;
  repo : option string;
  page_limit : option Z;
  skip_save : bool
}.

Record Request : Type := mkRequest {
  method : string;
  body : Body
}.

Inductive Payload : Type :=
| Text (s : string)
| Message (message : string)
| Dates (d : obj Day).

Record Response : Type := mkResponse {
  status : Z;
  payload : Payload
}.

(** What the handler reads from its surroundings: the configured
    secret, the tracker's pages per repository and the clock. *)
Record World : Type := mkWorld {
  SECRET : option string;
  listForRepo : string -> string -> list (list RawItem);
  clock : Z
}.

Definition same_secret (a b : option string) : bool :=
  match a, b with
  | Some x, Some y => String.eqb x y
  | None, None => true
  | _, _ => false
  end.

(** [x ?? d] *)
Definition nullish {A : Type} (x : option A) (d : A) : A :=
  match x with
  | Some v => v
  | None => d
  end.

(** The [catch] block. *)
Definition on_error (error : Exn) : Response :=
  match error with
  | PrismaClientKnownRequestError code =>
      if String.eqb code "P2002"
      then mkResponse 400 (Message "Already exists")
      else mkResponse 500 (Message "Internal server error")
  | OtherError => mkResponse 500 (Message "Internal server error")
  end.

(** The issues the handler fetches for a request. *)
Definition fetched (w : World) (req : Request) : list Issue :=
  getIssues
    (listForRepo w (nullish (owner (body req)) "vercel"%string)
       (nullish (repo (body req)) "next.js"%string))
    (Some (nullish (page_limit (body req)) 2)).

(** The handler in surroundings where every page request is answered
    and the datastore can be reached; [Fallible.handler] below adds the
    rejected page request and the unreachable datastore, and coincides
    with this one when neither occurs. *)
Definition handler (w : World) (req : Request) (db : Store)
  : Response * Store :=
  if negb (String.eqb (method req) "POST") then
    (mkResponse 405 (Text "Method not allowed"), db)
  else if negb (same_secret (SECRET w) (secret (body req))) then
    (mkResponse 401 (Message "Unauthorized"), db)
  else
    let issues := fetched w req in
    let dates := aggregate (clock w) FIRST_COMMIT_DATE issues in
    if skip_save (body req) then (mkResponse 200 (Dates dates), db)
    else
      match transaction (entries dates) db with
      | (db', None) => (mkResponse 200 (Dates dates), db')
      | (db', Some error) => (on_error error, db')
      end.

End History.

Import Fetcher Aggregator Gateway History.

(** ** Reference notions the properties are stated with *)

Module Reference.

Import Aggregator.

(** Number of issues created, respectively closed, on the date [date]. *)
Definition opened_on (issues : list Issue) (date : string) : Z :=
  len (issuesOpened issues date).

Definition closed_on (issues : list Issue) (date : string) : Z :=
  len (issuesClosed issues date).

(** Running totals over a list of dates, from the totals [o] and [c]. *)
Fixpoint running_totals (issues : list Issue) (ks : list string) (o c : Z)
  : obj Day :=
  match ks with
  | [] => []
  | k :: ks' =>
      let o' := o + opened_on issues k - closed_on issues k in
      let c' := c + closed_on issues k in
      (k, mkDay o' c') :: running_totals issues ks' o' c'
  end.

(** Day numbers of valid [Date]s. *)
Definition valid_day (z : Z) : Prop := -100000000 <= z <= 100000000.

Definition valid_issue (i : Issue) : Prop :=
  valid_time (created_at i)
  /\ match closed_at i with Some c => valid_time c | None => True end.

Definition between (lo hi z : Z) : bool := (lo <=? z) && (z <=? hi).

(** The issue was created on a day of [lo, hi]. *)
Definition created_within (lo hi : Z) (i : Issue) : bool :=
  between lo hi (day_of (created_at i)).

(** The issue was closed on a day of [lo, hi]. *)
Definition closed_within (lo hi : Z) (i : Issue) : bool :=
  match closed_at i with
  | Some c => between lo hi (day_of c)
  | None => false
  end.

Definition count {A : Type} (p : A -> bool) (xs : list A) : Z :=
  len (filter p xs).

Definition sum_on (f : string -> Z) (ks : list string) : Z :=
  fold_right (fun k a => f k + a) 0 ks.

(** The record the aggregation stores for day number [d]: the issues
    created in [start day, d] minus those closed in it, and those closed
    in it. *)
Definition totals_upto (issues : list Issue) (lo d : Z) : Day :=
  mkDay (count (created_within lo d) issues - count (closed_within lo d) issues)
        (count (closed_within lo d) issues).

(** The timestamps the fetcher keeps of a raw item. *)
Definition to_issue (raw : RawItem) : Issue :=
  mkIssue (raw_created_at raw) (raw_closed_at raw).

Definition not_pull_request (raw : RawItem) : bool := negb (pull_request raw).

(** The pages in front of the first empty page. *)
Fixpoint leading_pages (upstream : list (list RawItem)) : list (list RawItem) :=
  match upstream with
  | [] => []
  | issuesPage :: rest =>
      if len issuesPage =? 0 then [] else issuesPage :: leading_pages rest
  end.

(** Number of the first empty page (pages are numbered from 1). *)
Definition first_empty_page (upstream : list (list RawItem)) : Z :=
  len (leading_pages upstream) + 1.

(** The non-empty pages a fetch with the given ceiling goes through. *)
Definition consumed (upstream : list (list RawItem)) (hardLimitPage : option Z)
  : list (list RawItem) :=
  match hardLimitPage with
  | Some n => firstn (Z.to_nat n) (leading_pages upstream)
  | None => leading_pages upstream
  end.

(** The issues of some pages, pull requests left out, last item first. *)
Definition issues_of (pages : list (list RawItem)) : list Issue :=
  rev (map to_issue (filter not_pull_request (List.concat pages))).

(** Two page sequences that differ at most in their pull requests: page
    by page, one is empty when the other is, and they hold the same
    items that are not pull requests. *)
Definition same_but_pull_requests (u u' : list (list RawItem)) : Prop :=
  Forall2
    (fun p q =>
       (len p =? 0) = (len q =? 0)
       /\ filter not_pull_request p = filter not_pull_request q)
    u u'.

(** No Day Record of the output has a negative [totalOpened]. *)
Definition never_negative (now start : Z) (issues : list Issue) : Prop :=
  forall date rec,
    In (date, rec) (entries (aggregate now start issues)) ->
    0 <= totalOpened rec.

(** Neither stored total decreases from a day to the next. *)
Definition monotone_totals (now start : Z) (issues : list Issue) : Prop :=
  forall d r1 r2,
    day_of start <= d -> d + 1 <= day_of now ->
    get (isoDate_of_day d) (aggregate now start issues) = Some r1 ->
    get (isoDate_of_day (d + 1)) (aggregate now start issues) = Some r2 ->
    totalOpened r1 <= totalOpened r2 /\ totalClosed r1 <= totalClosed r2.

(** An issue closed on a day of the range was created on a day between
    the start day and its closing day. *)
Definition opened_in_range_before_closed (now start : Z) (i : Issue) : Prop :=
  match closed_at i with
  | Some c =>
      day_of start <= day_of c <= day_of now ->
      day_of start <= day_of (created_at i) <= day_of c
  | None => True
  end.

End Reference.

Import Reference.

(** ** Sample data *)

Module Samples.

(** Time values on a given UTC date: midnight, and some hours later. *)
Definition utc (y m d : Z) : Z := days_from_civil (y, m, d) * msPerDay.

Definition at_hour (h : Z) (t : Z) : Z := t + h * 3600000.

(** The issue of the first worked example of the spec. *)
Definition closed_next_day : Issue :=
  mkIssue (at_hour 9 (utc 2016 10 5)) (Some (at_hour 17 (utc 2016 10 6))).

(** An issue older than the first commit, closed within the range. *)
Definition older_issue : Issue :=
  mkIssue (at_hour 9 (utc 2016 10 4)) (Some (at_hour 17 (utc 2016 10 6))).

Definition still_open : Issue := mkIssue (at_hour 11 (utc 2016 10 5)) None.

(** Two raw pages followed by an empty one and a page that is never
    reached; the other sequence has other pull requests. *)
Definition raw_issue (i : Issue) : RawItem :=
  mkRawItem (created_at i) (closed_at i) false.

Definition raw_pull (t : Z) : RawItem := mkRawItem t None true.

Definition pages : list (list RawItem) :=
  [[raw_issue closed_next_day; raw_pull (utc 2016 10 5)];
   [raw_pull (utc 2016 10 6)];
   [raw_issue still_open];
   [];
   [raw_issue older_issue]].

Definition pages' : list (list RawItem) :=
  [[raw_pull (utc 2016 10 6); raw_issue closed_next_day];
   [raw_pull (utc 2016 10 5); raw_pull (utc 2016 10 7)];
   [raw_issue still_open];
   [];
   [raw_issue older_issue; raw_pull (utc 2016 10 4)]].

(** A tracker serving [pages], a clock on 2016-10-07, a request that
    passes the checks, and a table that already has a row of the range. *)
Definition world : History.World :=
  History.mkWorld (Some "s3cret"%string) (fun _ _ => pages)
    (at_hour 8 (utc 2016 10 7)).

Definition post (skip : bool) : History.Request :=
  History.mkRequest "POST"
    (History.mkBody (Some "s3cret"%string) None None None skip).

Definition stored : Gateway.Store := [("2016-10-06"%string, mkDay 5 7)].

End Samples.

Import Samples.

(** ** The snapshot endpoint: [src/pages/api/populate.ts] *)

Module Populate.

Import Gateway.

(** [data.repository]: the tracker's own totals. *)
Record TotalCountResult : Type := mkTotalCount {
  totalOpened_count : Z;
  totalClosed_count : Z
}.

Inductive Payload : Type :=
| Text (s : string)
| Message (message : string)
| Created (date : string) (day : Day).

Record Response : Type := mkResponse {
  status : Z;
  payload : Payload
}.

(** What the handler reads from its surroundings: the configured
    secret, the answer of the tracker to the total-count query ([None]
    when the query throws) and the clock. *)
Record World : Type := mkWorld {
  SECRET : option string;
  graphql : option TotalCountResult;
  clock : Z
}.

(** The [catch] block. *)
Definition on_error (error : Exn) : Response :=
  match error with
  | PrismaClientKnownRequestError code =>
      if String.eqb code "P2002"
      then mkResponse 400 (Message "Already exists")
      else mkResponse 500 (Message "Internal server error")
  | OtherError => mkResponse 500 (Message "Internal server error")
  end.

(** The row the handler asks the table to create: today's date
    ([isoDate()]) with the two totals of the query. *)
Definition snapshot_row (w : World) (data : TotalCountResult) : string * Day :=
  (isoDate (clock w), mkDay (totalOpened_count data) (totalClosed_count data)).

Definition handler (w : World) (req : History.Request) (db : Store)
  : Response * Store :=
  if negb (String.eqb (History.method req) "POST") then
    (mkResponse 405 (Text "Method not allowed"), db)
  else if negb (History.same_secret (SECRET w)
                  (History.secret (History.body req))) then
    (mkResponse 401 (Message "Unauthorized"), db)
  else
    match graphql w with
    | None => (on_error OtherError, db)
    | Some data =>
        match create (snapshot_row w data) db with
        | inr db' =>
            (mkResponse 200
               (Created (fst (snapshot_row w data)) (snd (snapshot_row w data))),
             db')
        | inl error => (on_error error, db)
        end
    end.

End Populate.

(** ** Further notions and sample data *)

Module Notions.

Import Aggregator.

(** The issues that have been closed. *)
Definition closed_issues (issues : list Issue) : list Issue :=
  filter (fun i => match closed_at i with Some _ => true | None => false end)
    issues.

(** The issue was created or closed on one of the dates [ks]. *)
Definition touches (ks : list string) (i : Issue) : bool :=
  existsb (String.eqb (isoDate (created_at i))) ks
  || match closed_at i with
     | Some c => existsb (String.eqb (isoDate c)) ks
     | None => false
     end.

(** Sum of two Day Records, total by total. *)
Definition add_days (a b : Day) : Day :=
  mkDay (totalOpened a + totalOpened b) (totalClosed a + totalClosed b).

(** An issue created and closed long before the first commit. *)
Definition ancient_issue : Issue :=
  mkIssue (at_hour 9 (utc 2012 3 1)) (Some (at_hour 9 (utc 2012 3 2))).

(** The snapshot endpoint's surroundings on 2016-10-07. *)
Definition snapshot_world : Populate.World :=
  Populate.mkWorld (Some "s3cret"%string)
    (Some (Populate.mkTotalCount 12 30)) (at_hour 20 (utc 2016 10 7)).

End Notions.

Import Notions.

(** ** The history endpoint with its failure paths *)

Module Fallible.

Import Fetcher Aggregator Gateway History.

(** The [while] loop of [getIssues] when a page request may reject.
    [upstream] lists what the tracker does for the page numbers [page],
    [page + 1], ...: [Some issuesPage] when it serves a page, [None] when
    the awaited request rejects; past its end every page is served empty.
    A rejection leaves the loop and the function at once, with what the
    handler's [catch] then sees, which is not a Prisma error. *)
Fixpoint getIssues_loop (upstream : list (option (list RawItem)))
  (hardLimit : Limit) (page : Z) (issues : list Issue) (log : list Z)
  : (Exn + list Issue) * list Z :=
  if within page hardLimit then
    match upstream with
    | [] => (inr issues, log ++ [page])
    | None :: _ => (inl OtherError, log ++ [page])
    | Some issuesPage :: rest =>
        if len issuesPage =? 0 then (inr issues, log ++ [page])
        else
          let issuesPage := filter (fun i => negb (pull_request i)) issuesPage in
          getIssues_loop rest hardLimit (page + 1)
            (unshift_page issuesPage issues) (log ++ [page])
    end
  else (inr issues, log).

Definition getIssues (upstream : list (option (list RawItem)))
  (hardLimitPage : option Z) : Exn + list Issue :=
  fst (getIssues_loop upstream (hardLimit_of hardLimitPage) 1 [] []).

(** What the handler reads from its surroundings: the configured
    secret, what the tracker does per repository and page, whether the
    datastore can be reached, and the clock. *)
Record World : Type := mkWorld {
  SECRET : option string;
  listForRepo : string -> string -> list (option (list RawItem));
  datastore_up : bool;
  clock : Z
}.

Definition fetch (w : World) (req : Request) : Exn + list Issue :=
  getIssues
    (listForRepo w (nullish (owner (body req)) "vercel"%string)
       (nullish (repo (body req)) "next.js"%string))
    (Some (nullish (page_limit (body req)) 2)).

(** Modelled from the spec: the bulk write of the Persistence Gateway
    returns "Result<(), DuplicateKeyError | OtherError>"; a datastore
    that cannot be reached fails the whole write with an error that is
    not a duplicate-key one and persists nothing. *)
Definition transaction (w : World) (rows : list (string * Day)) (db : Store)
  : Store * option Exn :=
  if datastore_up w then Gateway.transaction rows db
  else (db, Some OtherError).

Definition handler (w : World) (req : Request) (db : Store)
  : Response * Store :=
  if negb (String.eqb (method req) "POST") then
    (mkResponse 405 (Text "Method not allowed"), db)
  else if negb (same_secret (SECRET w) (secret (body req))) then
    (mkResponse 401 (Message "Unauthorized"), db)
  else
    match fetch w req with
    | inl error => (on_error error, db)
    | inr issues =>
        let dates := aggregate (clock w) FIRST_COMMIT_DATE issues in
        if skip_save (body req) then (mkResponse 200 (Dates dates), db)
        else
          match transaction w (entries dates) db with
          | (db', None) => (mkResponse 200 (Dates dates), db')
          | (db', Some error) => (on_error error, db')
          end
    end.

(** The surroundings in which every page request is answered and the
    datastore can be reached. *)
Definition healthy (w : History.World) : World :=
  mkWorld (History.SECRET w)
    (fun o r => map Some (History.listForRepo w o r))
    true (History.clock w).

End Fallible.

(** ** Notions and sample data for the failure paths *)

Module FailureNotions.

(** The pages served in front of the first rejected request. *)
Fixpoint answered (upstream : list (option (list RawItem)))
  : list (list RawItem) :=
  match upstream with
  | Some issuesPage :: rest => issuesPage :: answered rest
  | _ => []
  end.

(** Some request is rejected. *)
Definition rejects (upstream : list (option (list RawItem))) : bool :=
  existsb (fun reply => match reply with None => true | Some _ => false end)
    upstream.

Definition all_nonempty (pages : list (list RawItem)) : bool :=
  forallb (fun issuesPage => negb (len issuesPage =? 0)) pages.

(** The rejected request is reached: every page in front of it is
    non-empty and its number is within the ceiling. *)
Definition rejection_reached (upstream : list (option (list RawItem)))
  (hardLimitPage : option Z) : bool :=
  rejects upstream && all_nonempty (answered upstream)
  && Fetcher.within (len (answered upstream) + 1)
       (Fetcher.hardLimit_of hardLimitPage).

(** The answer to every failure that is not a duplicate key. *)
Definition internal_error : History.Response :=
  History.mkResponse 500 (History.Message "Internal server error").

Definition already_exists : History.Response :=
  History.mkResponse 400 (History.Message "Already exists").

(** What a saving run answers when one of its dates is already
    stored: 500 when a page request is rejected or the datastore cannot
    be reached, 400 otherwise. *)
Definition conflict_answer (w : Fallible.World) (req : History.Request)
  : History.Response :=
  match Fallible.fetch w req with
  | inl _ => internal_error
  | inr _ => if Fallible.datastore_up w then already_exists else internal_error
  end.

(** A tracker that serves [pages], one whose second page request is
    rejected, and a table with a row from before the first commit. *)
Definition served_world : Fallible.World := Fallible.healthy world.

Definition flaky_world : Fallible.World :=
  Fallible.mkWorld (Some "s3cret"%string)
    (fun _ _ => [Some [raw_issue closed_next_day]; None; Some []])
    true (at_hour 8 (utc 2016 10 7)).

Definition old_table : Gateway.Store := [("2016-10-01"%string, mkDay 3 4)].

End FailureNotions.

Import FailureNotions.

(** * Verification *)

(** Arithmetic with [/] and [mod] by constant divisors. *)
Ltac zdiv := Z.div_mod_to_equations; lia.

(** Boolean combinations of [<=?] by cases on every comparison. *)
Ltac leb_cases :=
  repeat match goal with
         | |- context [?a <=? ?b] => destruct (Z.leb_spec a b)
         end;
  simpl; try reflexivity; lia.

(** ** Calendar: distinct days have distinct ISO dates *)

Section CalendarFacts.

(** Known dates: the epoch, the first commit, leap days, and the ends
    of the range of valid [Date]s. *)
Example isoDate_known_values :
  isoDate 0 = "1970-01-01"%string
  /\ isoDate (-1) = "1969-12-31"%string
  /\ isoDate 1475625600000 = "2016-10-05"%string
  /\ isoDate 951782400000 = "2000-02-29"%string
  /\ isoDate (-2203891200001) = "1900-02-28"%string
  /\ isoDate (-2203891200000) = "1900-03-01"%string
  /\ isoDate 1709251199999 = "2024-02-29"%string
  /\ isoDate maxTime = "+275760-09-13"%string
  /\ isoDate (- maxTime) = "-271821-04-20"%string
  /\ isoDate (-62198755200000) = "-000001-01-01"%string.
Proof. repeat split; vm_compute; reflexivity. Qed.

(** The parts [civil_from_days] takes a day of the era into, and the
    way back. *)
Lemma era_day_parts (doe : Z) :
  0 <= doe < 146097 ->
  let yoe := yoe_of doe in
  let m := month_of doe in
  let d := dom_of doe in
  0 <= yoe <= 399 /\ 1 <= m <= 12 /\ 1 <= d <= 31
  /\ yoe * 365 + yoe / 4 - yoe / 100
     + ((153 * (if 2 <? m then m - 3 else m + 9) + 2) / 5 + d - 1) = doe.
Proof.
  intros R. cbv zeta.
  unfold month_of, dom_of, mp_of, doy_of, yoe_of, yoq_of, cycle_of, doq_of,
    century_of.
  pose proof (Z.div_mod doe 36524 ltac:(lia)) as D1.
  pose proof (Z.mod_pos_bound doe 36524 ltac:(lia)) as B1.
  set (c := Z.min 3 (doe / 36524)).
  assert (Hc : 0 <= c <= 3 /\ 0 <= doe - c * 36524 <= 36524).
  { unfold c. destruct (Z.min_spec 3 (doe / 36524)) as [[? ->]|[? ->]]; lia. }
  set (doc := doe - c * 36524) in *.
  pose proof (Z.div_mod doc 1461 ltac:(lia)) as D2.
  pose proof (Z.mod_pos_bound doc 1461 ltac:(lia)) as B2.
  set (q := doc / 1461) in *. set (doq := doc mod 1461) in *.
  pose proof (Z.div_mod doq 365 ltac:(lia)) as D3.
  pose proof (Z.mod_pos_bound doq 365 ltac:(lia)) as B3.
  set (yq := Z.min 3 (doq / 365)).
  assert (Hy : 0 <= yq <= 3 /\ 0 <= doq - yq * 365 <= 365).
  { unfold yq. destruct (Z.min_spec 3 (doq / 365)) as [[? ->]|[? ->]]; lia. }
  set (doy := doq - yq * 365) in *.
  assert (Hq : 0 <= q <= 24) by lia.
  set (yoe := c * 100 + q * 4 + yq).
  assert (Y4 : yoe / 4 = c * 25 + q)
    by (symmetry; apply (Z.div_unique yoe 4 (c * 25 + q) yq); lia).
  assert (Y100 : yoe / 100 = c)
    by (symmetry; apply (Z.div_unique yoe 100 c (q * 4 + yq)); lia).
  pose proof (Z.div_mod (5 * doy + 2) 153 ltac:(lia)) as D4.
  pose proof (Z.mod_pos_bound (5 * doy + 2) 153 ltac:(lia)) as B4.
  set (mp := (5 * doy + 2) / 153) in *.
  pose proof (Z.div_mod (153 * mp + 2) 5 ltac:(lia)) as D5.
  pose proof (Z.mod_pos_bound (153 * mp + 2) 5 ltac:(lia)) as B5.
  assert (Hmp : 0 <= mp <= 11) by lia.
  assert (M : (if 2 <? (if mp <? 10 then mp + 3 else mp - 9)
               then (if mp <? 10 then mp + 3 else mp - 9) - 3
               else (if mp <? 10 then mp + 3 else mp - 9) + 9) = mp).
  { destruct (mp <? 10) eqn:E.
    - apply Z.ltb_lt in E. replace (2 <? mp + 3) with true; [lia|].
      symmetry. apply Z.ltb_lt. lia.
    - apply Z.ltb_ge in E. replace (2 <? mp - 9) with false; [lia|].
      symmetry. apply Z.ltb_ge. lia. }
  rewrite M, Y4, Y100.
  repeat split; try lia; destruct (mp <? 10) eqn:E;
    try apply Z.ltb_lt in E; try apply Z.ltb_ge in E; lia.
Qed.

Lemma zrange_In (n : nat) : forall lo z,
  In z (zrange lo n) <-> lo <= z < lo + Z.of_nat n.
Proof.
  induction n as [|n IH]; intros lo z; simpl zrange.
  - simpl. lia.
  - simpl In. rewrite IH. lia.
Qed.

Lemma zrange_length (n : nat) : forall lo, List.length (zrange lo n) = n.
Proof. induction n; intros; simpl; auto. Qed.

Lemma zrange_NoDup (n : nat) : forall lo, NoDup (zrange lo n).
Proof.
  induction n as [|n IH]; intros lo; simpl; constructor; auto.
  rewrite zrange_In. lia.
Qed.

Lemma days_from_civil_from_days (z : Z) :
  days_from_civil (civil_from_days z) = z.
Proof.
  unfold civil_from_days, days_from_civil.
  assert (R : 0 <= doe_of z < 146097)
    by (unfold doe_of; apply Z.mod_pos_bound; lia).
  pose proof (era_day_parts _ R) as C. cbv zeta in C.
  destruct C as (Hyoe & Hm & Hd & H).
  set (doe := doe_of z) in *. set (m := month_of doe) in *.
  set (yoe := yoe_of doe) in *. set (d := dom_of doe) in *.
  set (y := yoe + era_of z * 400).
  assert (Y : (if m <=? 2 then (if m <=? 2 then y + 1 else y) - 1
               else (if m <=? 2 then y + 1 else y)) = y)
    by (destruct (m <=? 2); lia).
  rewrite Y.
  assert (E : y / 400 = era_of z).
  { unfold y. rewrite Z.div_add by lia. rewrite Z.div_small by lia. lia. }
  assert (M : y mod 400 = yoe).
  { unfold y. rewrite Z.mod_add by lia. apply Z.mod_small. lia. }
  rewrite E, M.
  unfold doe, doe_of, era_of in *.
  pose proof (Z.div_mod (z + 719468) 146097). lia.
Qed.

Lemma civil_from_days_range (z : Z) :
  let '(y, m, d) := civil_from_days z in
  era_of z * 400 <= y <= era_of z * 400 + 400 /\ 1 <= m <= 12 /\ 1 <= d <= 31.
Proof.
  unfold civil_from_days.
  assert (R : 0 <= doe_of z < 146097)
    by (unfold doe_of; apply Z.mod_pos_bound; lia).
  pose proof (era_day_parts _ R) as C. cbv zeta in C.
  destruct C as (Hyoe & Hm & Hd & H).
  destruct (month_of (doe_of z) <=? 2); lia.
Qed.

Lemma digit_inj (a b : Z) :
  0 <= a <= 9 -> 0 <= b <= 9 -> digit a = digit b -> a = b.
Proof.
  intros Ha Hb.
  assert (A : a = 0 \/ a = 1 \/ a = 2 \/ a = 3 \/ a = 4 \/ a = 5 \/ a = 6
              \/ a = 7 \/ a = 8 \/ a = 9) by lia.
  assert (B : b = 0 \/ b = 1 \/ b = 2 \/ b = 3 \/ b = 4 \/ b = 5 \/ b = 6
              \/ b = 7 \/ b = 8 \/ b = 9) by lia.
  repeat (destruct A as [A|A]); repeat (destruct B as [B|B]);
    subst a b; simpl; intros E; try reflexivity; discriminate E.
Qed.

Lemma digit_not_sign (a : Z) :
  digit a <> "-"%char /\ digit a <> "+"%char.
Proof.
  unfold digit. destruct a as [|p|p]; [split; discriminate| |split; discriminate].
  do 4 (destruct p as [p|p|]; try (split; discriminate)).
Qed.

Lemma String_inj (a b : ascii) (s s' : string) :
  String a s = String b s' -> a = b /\ s = s'.
Proof. intros E. injection E as E1 E2. split; assumption. Qed.

Lemma pad2_inj (a b : Z) (r r' : string) :
  0 <= a < 100 -> 0 <= b < 100 -> pad2 a r = pad2 b r' -> a = b /\ r = r'.
Proof.
  intros Ha Hb E. unfold pad2 in E. injection E as E1 E2 E3.
  apply digit_inj in E1; [|zdiv..]. apply digit_inj in E2; [|zdiv..].
  split; [zdiv | assumption].
Qed.

Lemma pad4_inj (a b : Z) (r r' : string) :
  0 <= a < 10000 -> 0 <= b < 10000 -> pad4 a r = pad4 b r' -> a = b /\ r = r'.
Proof.
  intros Ha Hb E. unfold pad4 in E.
  apply pad2_inj in E; [|zdiv..]. destruct E as [E1 E2].
  apply pad2_inj in E2; [|zdiv..]. destruct E2 as [E2 E3].
  split; [zdiv | assumption].
Qed.

Lemma pad6_inj (a b : Z) (r r' : string) :
  0 <= a < 1000000 -> 0 <= b < 1000000 -> pad6 a r = pad6 b r' ->
  a = b /\ r = r'.
Proof.
  intros Ha Hb E. unfold pad6 in E.
  apply pad2_inj in E; [|zdiv..]. destruct E as [E1 E2].
  apply pad4_inj in E2; [|zdiv..]. destruct E2 as [E2 E3].
  split; [zdiv | assumption].
Qed.

Lemma year_string_inj (y y' : Z) (r r' : string) :
  -1000000 < y < 1000000 -> -1000000 < y' < 1000000 ->
  year_string y r = year_string y' r' -> y = y' /\ r = r'.
Proof.
  intros Hy Hy'. unfold year_string.
  destruct ((0 <=? y) && (y <=? 9999)) eqn:S1;
    destruct ((0 <=? y') && (y' <=? 9999)) eqn:S2.
  - intros E. apply pad4_inj in E; [assumption|lia..].
  - unfold pad4 at 1, pad2 at 1.
    destruct (digit_not_sign (y / 100 / 10)) as [N1 N2].
    destruct (y' <? 0); intros E; injection E as E1 _; congruence.
  - unfold pad4 at 1, pad2 at 1.
    destruct (digit_not_sign (y' / 100 / 10)) as [N1 N2].
    destruct (y <? 0); intros E; injection E as E1 _; congruence.
  - destruct (y <? 0) eqn:L1; destruct (y' <? 0) eqn:L2; intros E;
      try discriminate E; apply String_inj in E; destruct E as [_ E];
      apply pad6_inj in E; try lia; (split; [lia | tauto]).
Qed.

Lemma format_date_inj (a b : Z * Z * Z) :
  let '(y, m, d) := a in
  let '(y', m', d') := b in
  -1000000 < y < 1000000 -> -1000000 < y' < 1000000 ->
  1 <= m <= 12 -> 1 <= m' <= 12 -> 1 <= d <= 31 -> 1 <= d' <= 31 ->
  format_date a = format_date b -> a = b.
Proof.
  destruct a as [[y m] d], b as [[y' m'] d']. intros Hy Hy' Hm Hm' Hd Hd' E.
  unfold format_date in E.
  apply year_string_inj in E; try assumption. destruct E as [-> E].
  apply String_inj in E. destruct E as [_ E].
  apply pad2_inj in E; [|lia..]. destruct E as [-> E].
  apply String_inj in E. destruct E as [_ E].
  apply pad2_inj in E; [|lia..]. destruct E as [-> _].
  reflexivity.
Qed.

Lemma valid_time_day (t : Z) : valid_time t -> valid_day (day_of t).
Proof.
  unfold valid_time, valid_day, day_of, maxTime, msPerDay. intros H.
  split.
  - apply Z.div_le_lower_bound; lia.
  - apply Z.div_le_upper_bound; lia.
Qed.

Lemma isoDate_of_day_inj (z1 z2 : Z) :
  valid_day z1 -> valid_day z2 ->
  isoDate_of_day z1 = isoDate_of_day z2 -> z1 = z2.
Proof.
  unfold valid_day, isoDate_of_day. intros H1 H2 E.
  pose proof (civil_from_days_range z1) as R1.
  pose proof (civil_from_days_range z2) as R2.
  pose proof (format_date_inj (civil_from_days z1) (civil_from_days z2)) as I.
  destruct (civil_from_days z1) as [[y m] d] eqn:C1.
  destruct (civil_from_days z2) as [[y' m'] d'] eqn:C2.
  assert (B1 : -700 <= era_of z1 <= 700).
  { unfold era_of. split;
      [apply Z.div_le_lower_bound | apply Z.div_le_upper_bound]; lia. }
  assert (B2 : -700 <= era_of z2 <= 700).
  { unfold era_of. split;
      [apply Z.div_le_lower_bound | apply Z.div_le_upper_bound]; lia. }
  rewrite <- (days_from_civil_from_days z1), <- (days_from_civil_from_days z2).
  rewrite C1, C2. f_equal. apply I; try assumption; lia.
Qed.

End CalendarFacts.

(** ** Objects: keys stay distinct *)

Section ObjectFacts.

Context {V : Type}.

Implicit Types (o : obj V) (k : string) (v : V).

Lemma keys_app o o' : keys (o ++ o') = keys o ++ keys o'.
Proof. unfold keys. apply map_app. Qed.

Lemma set_fresh k v o : ~ In k (keys o) -> set k v o = o ++ [(k, v)].
Proof.
  induction o as [|[k' v'] o IH]; simpl; intros N; [reflexivity|].
  destruct (String.eqb_spec k k') as [->|D]; [tauto|].
  f_equal. apply IH. tauto.
Qed.

Lemma keys_set_In k v o : In k (keys o) -> keys (set k v o) = keys o.
Proof.
  induction o as [|[k' v'] o IH]; simpl; intros I; [tauto|].
  destruct (String.eqb_spec k k') as [->|D]; simpl; [reflexivity|].
  f_equal. apply IH. destruct I; congruence.
Qed.

Lemma keys_set_NoDup k v o : NoDup (keys o) -> NoDup (keys (set k v o)).
Proof.
  intros N. destruct (in_dec string_dec k (keys o)) as [I|I].
  - rewrite keys_set_In; assumption.
  - rewrite set_fresh, keys_app by assumption. simpl.
    apply NoDup_app; [assumption|repeat constructor; simpl; tauto|].
    simpl. intros x Hx [<-|[]]. contradiction.
Qed.

Lemma set_all_same k v o :
  Forall (fun e => snd e = v) o -> Forall (fun e => snd e = v) (set k v o).
Proof.
  induction o as [|[k' v'] o IH]; simpl; intros F.
  - repeat constructor.
  - inversion F as [|? ? F1 F2]; subst.
    destruct (String.eqb k k'); constructor; auto.
Qed.

Lemma fold_set_NoDup (es : list (string * V)) : forall o,
  NoDup (keys o) ->
  NoDup (keys (fold_left (fun o e => set (fst e) (snd e) o) es o)).
Proof.
  induction es as [|e es IH]; simpl; intros o N; [assumption|].
  apply IH. apply keys_set_NoDup. assumption.
Qed.

Lemma fromEntries_NoDup (es : list (string * V)) : NoDup (keys (fromEntries es)).
Proof. apply fold_set_NoDup. constructor. Qed.

Lemma fold_set_fresh (es : list (string * V)) : forall o,
  NoDup (keys o ++ map fst es) ->
  fold_left (fun o e => set (fst e) (snd e) o) es o = o ++ es.
Proof.
  induction es as [|[k v] es IH]; simpl; intros o N.
  - symmetry. apply app_nil_r.
  - assert (F : ~ In k (keys o)).
    { apply NoDup_remove_2 in N. intros I. apply N. apply in_or_app. tauto. }
    rewrite set_fresh by assumption. rewrite IH.
    + rewrite <- app_assoc. reflexivity.
    + rewrite keys_app, <- app_assoc. exact N.
Qed.

(** Entries with pairwise distinct keys become the object as they are. *)
Lemma fromEntries_distinct (es : list (string * V)) :
  NoDup (map fst es) -> fromEntries es = es.
Proof. intros N. unfold fromEntries. rewrite fold_set_fresh; auto. Qed.

Lemma get_app_fresh k o o' : ~ In k (keys o) -> get k (o ++ o') = get k o'.
Proof.
  induction o as [|[k' v'] o IH]; simpl; intros N; [reflexivity|].
  destruct (String.eqb_spec k k') as [->|D]; [tauto|]. apply IH. tauto.
Qed.

Lemma set_app_fresh k v o o' :
  ~ In k (keys o) -> set k v (o ++ o') = o ++ set k v o'.
Proof.
  induction o as [|[k' v'] o IH]; simpl; intros N; [reflexivity|].
  destruct (String.eqb_spec k k') as [->|D]; [tauto|].
  f_equal. apply IH. tauto.
Qed.

Lemma modify_here k (f : V -> V) v o o' :
  ~ In k (keys o) ->
  modify k f (o ++ (k, v) :: o') = o ++ (k, f v) :: o'.
Proof.
  intros N. unfold modify. rewrite get_app_fresh by assumption.
  simpl. rewrite String.eqb_refl. rewrite set_app_fresh by assumption.
  simpl. rewrite String.eqb_refl. reflexivity.
Qed.

End ObjectFacts.

(** ** The aggregation loop computes running totals *)

Section LoopFacts.

Variable issues : list Issue.

Lemma len_nonneg {A : Type} (xs : list A) : 0 <= len xs.
Proof. unfold len. lia. Qed.

Lemma keys_zero (ks : list string) :
  keys (map (fun k => (k, zeroDay)) ks) = ks.
Proof.
  unfold keys. rewrite map_map. simpl. apply map_id.
Qed.

Lemma loop_running (ks : list string) : forall done o c,
  NoDup ks -> (forall k, In k ks -> ~ In k (keys done)) ->
  dates (fold_left (loop_body issues) ks
           (mkLoop o c (done ++ map (fun k => (k, zeroDay)) ks)))
  = done ++ running_totals issues ks o c.
Proof.
  induction ks as [|k ks IH]; intros done o c N F; simpl.
  - reflexivity.
  - inversion N as [|? ? N1 N2]; subst.
    unfold loop_body at 2. simpl.
    rewrite modify_here by (apply F; simpl; tauto).
    assert (O : (if len (issuesOpened issues k) =? 0 then o
                 else o + len (issuesOpened issues k))
                = o + opened_on issues k).
    { unfold opened_on. destruct (Z.eqb_spec (len (issuesOpened issues k)) 0); lia. }
    rewrite O. simpl. fold (closed_on issues k).
    change (done ++ ?e :: ?rest) with (done ++ [e] ++ rest).
    rewrite !app_assoc. rewrite IH.
    + repeat f_equal; lia.
    + assumption.
    + intros k' I. rewrite keys_app. simpl. intros J.
      apply in_app_or in J. destruct J as [J|[<-|[]]].
      * apply (F k'); simpl; tauto.
      * contradiction.
Qed.

Lemma initial_dates_zero (now start : Z) :
  initial_dates now start
  = map (fun k => (k, zeroDay)) (keys (initial_dates now start)).
Proof.
  assert (F : Forall (fun e => snd e = zeroDay) (initial_dates now start)).
  { unfold initial_dates, fromEntries.
    generalize (eachDayUntilToday now start). intros ds.
    assert (G : Forall (fun e : string * Day => snd e = zeroDay) [])
      by constructor.
    revert G. generalize (@nil (string * Day)).
    induction ds as [|d ds IH]; simpl; intros o G; [assumption|].
    apply IH. apply set_all_same. assumption. }
  induction F as [|[k v] o E F IH]; simpl; [reflexivity|].
  simpl in E. subst v. f_equal. exact IH.
Qed.

Lemma initial_dates_NoDup (now start : Z) : NoDup (keys (initial_dates now start)).
Proof. apply fromEntries_NoDup. Qed.

(** The stored totals are the running totals over the enumerated keys. *)
Lemma aggregate_running (now start : Z) :
  aggregate now start issues
  = running_totals issues (keys (initial_dates now start)) 0 0.
Proof.
  unfold aggregate, run_loop.
  rewrite (initial_dates_zero now start) at 2.
  apply (loop_running _ []).
  - apply initial_dates_NoDup.
  - simpl. tauto.
Qed.

End LoopFacts.

(** ** The record of a day of the range *)

Section RangeFacts.

Lemma day_of_midnight (z : Z) : day_of (z * msPerDay) = z.
Proof. unfold day_of, msPerDay. apply Z.div_mul. lia. Qed.

Lemma zrange_app (a b : nat) : forall lo,
  zrange lo (a + b) = zrange lo a ++ zrange (lo + Z.of_nat a) b.
Proof.
  induction a as [|a IH]; intros lo.
  - simpl. f_equal. lia.
  - change (zrange lo (S a + b)) with (lo :: zrange (lo + 1) (a + b)).
    rewrite IH. change (zrange lo (S a)) with (lo :: zrange (lo + 1) a).
    simpl app. do 3 f_equal. lia.
Qed.

Lemma NoDup_map_on {A B : Type} (f : A -> B) (l : list A) :
  (forall x y, In x l -> In y l -> f x = f y -> x = y) ->
  NoDup l -> NoDup (map f l).
Proof.
  induction l as [|a l IH]; simpl; intros I N; [constructor|].
  inversion N as [|? ? N1 N2]; subst. constructor.
  - rewrite in_map_iff. intros (y & E & Hy).
    assert (y = a) by (apply I; auto). subst. contradiction.
  - apply IH; auto.
Qed.

Lemma days_until_In (now start z : Z) :
  In z (days_until now start) <-> day_of start <= z <= day_of now.
Proof. unfold days_until. rewrite zrange_In. lia. Qed.

Lemma days_until_valid (now start z : Z) :
  valid_time now -> valid_time start -> In z (days_until now start) ->
  valid_day z.
Proof.
  intros Hn Hs I. apply days_until_In in I.
  apply valid_time_day in Hn, Hs. unfold valid_day in *. lia.
Qed.

Lemma date_keys_NoDup (now start : Z) :
  valid_time now -> valid_time start ->
  NoDup (map isoDate_of_day (days_until now start)).
Proof.
  intros Hn Hs. apply NoDup_map_on.
  - intros x y Hx Hy.
    apply isoDate_of_day_inj; apply (days_until_valid now start); assumption.
  - apply zrange_NoDup.
Qed.

(** The keys of [dates] are the dates of the days of the range, in
    order. *)
Lemma keys_initial_dates (now start : Z) :
  valid_time now -> valid_time start ->
  keys (initial_dates now start) = map isoDate_of_day (days_until now start).
Proof.
  intros Hn Hs. unfold initial_dates, eachDayUntilToday.
  rewrite map_map.
  assert (E : map (fun z => (isoDate (z * msPerDay), zeroDay)) (days_until now start)
              = map (fun k => (k, zeroDay))
                  (map isoDate_of_day (days_until now start))).
  { rewrite map_map. apply map_ext. intros z. unfold isoDate.
    rewrite day_of_midnight. reflexivity. }
  rewrite E. rewrite fromEntries_distinct.
  - apply keys_zero.
  - fold (keys (map (fun k => (k, zeroDay))
                  (map isoDate_of_day (days_until now start)))).
    rewrite keys_zero. apply date_keys_NoDup; assumption.
Qed.

Lemma running_totals_keys (issues : list Issue) (ks : list string) :
  forall o c, keys (running_totals issues ks o c) = ks.
Proof.
  induction ks as [|k ks IH]; intros o c; simpl; [reflexivity|].
  f_equal. apply IH.
Qed.

Lemma get_running (issues : list Issue) (pre : list string) :
  forall k post o c,
  ~ In k pre ->
  get k (running_totals issues (pre ++ k :: post) o c)
  = Some (mkDay
            (o + sum_on (opened_on issues) (pre ++ [k])
               - sum_on (closed_on issues) (pre ++ [k]))
            (c + sum_on (closed_on issues) (pre ++ [k]))).
Proof.
  induction pre as [|k' pre IH]; intros k post o c N; simpl.
  - rewrite String.eqb_refl. f_equal. f_equal; lia.
  - destruct (String.eqb_spec k k') as [->|D]; [simpl in N; tauto|].
    rewrite IH by (simpl in N; tauto). f_equal. f_equal; lia.
Qed.

Lemma count_split {A : Type} (p q r : A -> bool) (xs : list A) :
  (forall x, In x xs -> p x = q x || r x) ->
  (forall x, In x xs -> q x && r x = false) ->
  count p xs = count q xs + count r xs.
Proof.
  unfold count, len. induction xs as [|x xs IH]; intros E D; [reflexivity|].
  simpl. rewrite (E x) by (simpl; tauto).
  pose proof (D x ltac:(simpl; tauto)) as Dx.
  assert (IH' := IH (fun y Hy => E y (or_intror Hy))
                    (fun y Hy => D y (or_intror Hy))).
  destruct (q x), (r x); simpl in Dx; try discriminate Dx; simpl orb; cbv iota;
    simpl List.length; lia.
Qed.

Lemma count_ext {A : Type} (p q : A -> bool) (xs : list A) :
  (forall x, In x xs -> p x = q x) -> count p xs = count q xs.
Proof.
  unfold count, len. induction xs as [|x xs IH]; intros E; [reflexivity|].
  simpl. rewrite (E x) by (simpl; tauto).
  assert (IH' := IH (fun y Hy => E y (or_intror Hy))).
  destruct (q x); simpl List.length; lia.
Qed.

Lemma count_le {A : Type} (p q : A -> bool) (xs : list A) :
  (forall x, In x xs -> p x = true -> q x = true) -> count p xs <= count q xs.
Proof.
  unfold count, len. induction xs as [|x xs IH]; intros E; [simpl; lia|].
  simpl. pose proof (E x ltac:(simpl; tauto)) as Ex.
  assert (IH' := IH (fun y Hy => E y (or_intror Hy))).
  destruct (p x), (q x); simpl List.length; lia.
Qed.

Lemma count_none {A : Type} (p : A -> bool) (xs : list A) :
  (forall x, In x xs -> p x = false) -> count p xs = 0.
Proof.
  unfold count, len. induction xs as [|x xs IH]; intros E; [reflexivity|].
  simpl. rewrite (E x) by (simpl; tauto). apply IH. intros y Hy. apply E.
  simpl. tauto.
Qed.

Lemma isoDate_eqb (t z : Z) :
  valid_time t -> valid_day z ->
  String.eqb (isoDate t) (isoDate_of_day z) = (day_of t =? z).
Proof.
  intros Ht Hz. unfold isoDate.
  destruct (String.eqb_spec (isoDate_of_day (day_of t)) (isoDate_of_day z)) as [E|E].
  - apply isoDate_of_day_inj in E; auto using valid_time_day.
    symmetry. apply Z.eqb_eq. assumption.
  - symmetry. apply Z.eqb_neq. congruence.
Qed.

Section Counts.

Variable issues : list Issue.
Hypothesis issues_valid : Forall valid_issue issues.

Lemma opened_on_day (z : Z) :
  valid_day z ->
  opened_on issues (isoDate_of_day z) = count (created_within z z) issues.
Proof.
  intros Hz. unfold opened_on, issuesOpened. apply count_ext.
  intros i Hi. rewrite Forall_forall in issues_valid.
  destruct (issues_valid i Hi) as [Vc _].
  rewrite isoDate_eqb by assumption. unfold created_within, between.
  destruct (Z.eqb_spec (day_of (created_at i)) z); lia.
Qed.

Lemma closed_on_day (z : Z) :
  valid_day z ->
  closed_on issues (isoDate_of_day z) = count (closed_within z z) issues.
Proof.
  intros Hz. unfold closed_on, issuesClosed. apply count_ext.
  intros i Hi. rewrite Forall_forall in issues_valid.
  destruct (issues_valid i Hi) as [_ Vc]. unfold closed_within, between.
  destruct (closed_at i) as [c|]; [|reflexivity].
  rewrite isoDate_eqb by assumption.
  destruct (Z.eqb_spec (day_of c) z); lia.
Qed.

Lemma sum_opened_range (n : nat) : forall lo,
  (forall z, lo <= z < lo + Z.of_nat n -> valid_day z) ->
  sum_on (opened_on issues) (map isoDate_of_day (zrange lo n))
  = count (created_within lo (lo + Z.of_nat n - 1)) issues.
Proof.
  induction n as [|n IH]; intros lo V.
  - simpl. symmetry. apply count_none. intros i _.
    unfold created_within, between. lia.
  - simpl zrange. simpl map. simpl sum_on. fold (sum_on (opened_on issues)).
    rewrite IH by (intros z Hz; apply V; lia).
    rewrite opened_on_day by (apply V; lia). symmetry.
    replace (lo + 1 + Z.of_nat n - 1) with (lo + Z.of_nat (S n) - 1) by lia.
    apply count_split; intros i _; unfold created_within, between; leb_cases.
Qed.

Lemma sum_closed_range (n : nat) : forall lo,
  (forall z, lo <= z < lo + Z.of_nat n -> valid_day z) ->
  sum_on (closed_on issues) (map isoDate_of_day (zrange lo n))
  = count (closed_within lo (lo + Z.of_nat n - 1)) issues.
Proof.
  induction n as [|n IH]; intros lo V.
  - simpl. symmetry. apply count_none. intros i _.
    unfold closed_within, between. destruct (closed_at i); lia.
  - simpl zrange. simpl map. simpl sum_on. fold (sum_on (closed_on issues)).
    rewrite IH by (intros z Hz; apply V; lia).
    rewrite closed_on_day by (apply V; lia). symmetry.
    replace (lo + 1 + Z.of_nat n - 1) with (lo + Z.of_nat (S n) - 1) by lia.
    apply count_split; intros i _; unfold closed_within, between;
      destruct (closed_at i); leb_cases.
Qed.

(** The record stored for a day [d] of the range. *)
Lemma record_of_day (now start d : Z) :
  valid_time now -> valid_time start ->
  day_of start <= d <= day_of now ->
  get (isoDate_of_day d) (aggregate now start issues)
  = Some (totals_upto issues (day_of start) d).
Proof.
  intros Hn Hs R.
  pose proof (date_keys_NoDup now start Hn Hs) as N.
  rewrite aggregate_running, keys_initial_dates by assumption.
  unfold days_until in *.
  set (s := day_of start) in *.
  replace (Z.to_nat (day_of now - s + 1))
    with (Z.to_nat (d - s) + S (Z.to_nat (day_of now - d)))%nat in * by lia.
  rewrite zrange_app in *. simpl zrange in *.
  replace (s + Z.of_nat (Z.to_nat (d - s))) with d in * by lia.
  rewrite map_app in *. simpl map in *.
  rewrite get_running by (apply NoDup_remove_2 in N; intros I; apply N;
                          apply in_or_app; tauto).
  assert (P : map isoDate_of_day (zrange s (Z.to_nat (d - s))) ++ [isoDate_of_day d]
              = map isoDate_of_day (zrange s (Z.to_nat (d - s) + 1))).
  { rewrite zrange_app, map_app. simpl.
    replace (s + Z.of_nat (Z.to_nat (d - s))) with d by lia. reflexivity. }
  rewrite P.
  assert (Vs : valid_day s) by (apply valid_time_day; assumption).
  assert (Vn : valid_day (day_of now)) by (apply valid_time_day; assumption).
  rewrite sum_opened_range, sum_closed_range
    by (intros z Hz; unfold valid_day in *; lia).
  replace (s + Z.of_nat (Z.to_nat (d - s) + 1) - 1) with d by lia.
  reflexivity.
Qed.

End Counts.

End RangeFacts.

(** ** The Daily Aggregator *)

Section AggregatorClaims.

Lemma filter_length_perm {A : Type} (f : A -> bool) (l l' : list A) :
  Permutation l l' -> List.length (filter f l) = List.length (filter f l').
Proof.
  induction 1 as [|x l l' P IH|x y l|l l' l'' P1 IH1 P2 IH2]; simpl.
  - reflexivity.
  - destruct (f x); simpl; congruence.
  - destruct (f x), (f y); reflexivity.
  - congruence.
Qed.

Lemma loop_body_perm (issues issues' : list Issue) (st : LoopState) (date : string) :
  Permutation issues issues' ->
  loop_body issues st date = loop_body issues' st date.
Proof.
  intros P. unfold loop_body, issuesOpened, issuesClosed, len.
  rewrite (filter_length_perm _ _ _ P).
  rewrite (filter_length_perm
             (fun i => match closed_at i with
                       | Some c => String.eqb (isoDate c) date
                       | None => false
                       end) _ _ P).
  reflexivity.
Qed.

Lemma fold_left_ext_state {A B : Type} (f g : A -> B -> A) (l : list B) :
  (forall a b, f a b = g a b) -> forall a, fold_left f l a = fold_left g l a.
Proof.
  intros E. induction l as [|b l IH]; intros a; simpl; [reflexivity|].
  rewrite E. apply IH.
Qed.

Lemma In_get_NoDup {V : Type} (k : string) (v : V) (o : obj V) :
  NoDup (keys o) -> In (k, v) o -> get k o = Some v.
Proof.
  induction o as [|[k' v'] o IH]; simpl; intros N I; [destruct I|].
  inversion N as [|? ? N1 N2]; subst.
  destruct I as [E|I].
  - injection E as -> ->. rewrite String.eqb_refl. reflexivity.
  - destruct (String.eqb_spec k k') as [->|D]; [|auto].
    exfalso. apply N1. unfold keys. apply in_map_iff. exists (k', v). auto.
Qed.

Lemma day_of_date (t z : Z) :
  valid_time t -> valid_day z -> isoDate t = isoDate_of_day z -> day_of t = z.
Proof.
  intros Ht Hz E. apply isoDate_of_day_inj; auto using valid_time_day.
Qed.

(** C1, as stated, fails: an issue created the day before the start date
    and closed within the range leaves [totalOpened] at -1. *)
Lemma totalOpened_negative_example :
  ~ never_negative (utc 2016 10 7) FIRST_COMMIT_DATE [older_issue].
Proof.
  intros H.
  assert (N : 0 <= totalOpened (mkDay (-1) 1)).
  { apply (H "2016-10-06"%string). vm_compute. tauto. }
  simpl in N. lia.
Qed.

(** C1 (amended): when every issue closed on a day of the range was
    created on a day between the start day and its closing day, no day of
    the range gets a negative [totalOpened]. *)
Theorem totalOpened_nonneg (now start : Z) (issues : list Issue) :
  valid_time now -> valid_time start ->
  Forall valid_issue issues ->
  Forall (opened_in_range_before_closed now start) issues ->
  never_negative now start issues.
Proof.
  intros Hn Hs V O date rec I. unfold entries in I.
  assert (K : keys (aggregate now start issues)
              = map isoDate_of_day (days_until now start)).
  { rewrite aggregate_running, running_totals_keys.
    apply keys_initial_dates; assumption. }
  assert (G : get date (aggregate now start issues) = Some rec).
  { apply In_get_NoDup; [|exact I]. rewrite K.
    apply date_keys_NoDup; assumption. }
  assert (D : In date (keys (aggregate now start issues)))
    by (apply in_map_iff; exists (date, rec); auto).
  rewrite K in D. apply in_map_iff in D. destruct D as (d & <- & D).
  apply days_until_In in D.
  rewrite (record_of_day issues V now start d Hn Hs D) in G.
  injection G as <-. unfold totals_upto. simpl.
  assert (L : count (closed_within (day_of start) d) issues
              <= count (created_within (day_of start) d) issues).
  { apply count_le. intros i Hi C. rewrite Forall_forall in O.
    specialize (O i Hi). unfold opened_in_range_before_closed in O.
    unfold closed_within, created_within, between in *.
    destruct (closed_at i) as [c|]; [|discriminate].
    apply andb_prop in C. destruct C as [C1 C2].
    apply Z.leb_le in C1, C2.
    apply andb_true_intro. split; apply Z.leb_le; lia. }
  lia.
Qed.

Lemma totalOpened_nonneg_witness :
  never_negative (utc 2016 10 7) FIRST_COMMIT_DATE [closed_next_day; still_open].
Proof.
  apply totalOpened_nonneg.
  - unfold valid_time. vm_compute. split; discriminate.
  - unfold valid_time. vm_compute. split; discriminate.
  - repeat constructor; vm_compute; discriminate.
  - repeat constructor; vm_compute; discriminate.
Defined.

(** C2, as stated, fails: in the spec's first worked example
    [totalOpened] goes from 1 to 0. *)
Lemma totalOpened_decreases_example :
  ~ monotone_totals (utc 2016 10 7) FIRST_COMMIT_DATE [closed_next_day].
Proof.
  intros H.
  assert (N : totalOpened (mkDay 1 0) <= totalOpened (mkDay 0 1)
              /\ totalClosed (mkDay 1 0) <= totalClosed (mkDay 0 1)).
  { apply (H 17079); vm_compute; try reflexivity; discriminate. }
  simpl in N. lia.
Qed.

(** C2 (amended): from a day of the range to the next, [totalClosed]
    does not decrease, it grows by the issues closed on the next day;
    [totalOpened] changes by the issues created minus the issues closed
    on the next day. *)
Theorem totals_step (now start : Z) (issues : list Issue) (d : Z) :
  valid_time now -> valid_time start ->
  Forall valid_issue issues ->
  day_of start <= d -> d + 1 <= day_of now ->
  exists r1 r2,
    get (isoDate_of_day d) (aggregate now start issues) = Some r1
    /\ get (isoDate_of_day (d + 1)) (aggregate now start issues) = Some r2
    /\ totalClosed r1 <= totalClosed r2
    /\ totalClosed r2
       = totalClosed r1 + count (closed_within (d + 1) (d + 1)) issues
    /\ totalOpened r2
       = totalOpened r1 + count (created_within (d + 1) (d + 1)) issues
         - count (closed_within (d + 1) (d + 1)) issues.
Proof.
  intros Hn Hs V R1 R2.
  exists (totals_upto issues (day_of start) d),
         (totals_upto issues (day_of start) (d + 1)).
  split; [apply record_of_day; auto; lia|].
  split; [apply record_of_day; auto; lia|].
  unfold totals_upto. simpl.
  assert (C : count (closed_within (day_of start) (d + 1)) issues
              = count (closed_within (day_of start) d) issues
                + count (closed_within (d + 1) (d + 1)) issues).
  { apply count_split; intros i _; unfold closed_within, between;
      destruct (closed_at i); leb_cases. }
  assert (O : count (created_within (day_of start) (d + 1)) issues
              = count (created_within (day_of start) d) issues
                + count (created_within (d + 1) (d + 1)) issues).
  { apply count_split; intros i _; unfold created_within, between; leb_cases. }
  pose proof (len_nonneg (filter (closed_within (d + 1) (d + 1)) issues)) as P.
  fold (count (closed_within (d + 1) (d + 1)) issues) in P.
  lia.
Qed.

Lemma totals_step_witness :
  exists r1 r2,
    get (isoDate_of_day 17079)
      (aggregate (utc 2016 10 7) FIRST_COMMIT_DATE [closed_next_day]) = Some r1
    /\ get (isoDate_of_day (17079 + 1))
         (aggregate (utc 2016 10 7) FIRST_COMMIT_DATE [closed_next_day]) = Some r2
    /\ totalClosed r1 <= totalClosed r2
    /\ totalClosed r2
       = totalClosed r1
         + count (closed_within (17079 + 1) (17079 + 1)) [closed_next_day]
    /\ totalOpened r2
       = totalOpened r1
         + count (created_within (17079 + 1) (17079 + 1)) [closed_next_day]
         - count (closed_within (17079 + 1) (17079 + 1)) [closed_next_day].
Proof.
  apply totals_step.
  - unfold valid_time. vm_compute. split; discriminate.
  - unfold valid_time. vm_compute. split; discriminate.
  - repeat constructor; vm_compute; discriminate.
  - vm_compute. discriminate.
  - vm_compute. discriminate.
Defined.

(** C3: the two worked examples of the spec.  An issue created on
    2016-10-05 and closed on 2016-10-06, aggregated from 2016-10-05 until
    2016-10-07, gives {1,0}, {0,1}, {0,1}; two issues created on
    2016-10-05, one closed on 2016-10-06 and one still open, aggregated
    until 2016-10-06, give {2,0}, {1,1}.  The times of day are
    arbitrary. *)
Theorem worked_examples (start now1 now2 c k c1 k1 c2 : Z) :
  valid_time start -> valid_time now1 -> valid_time now2 ->
  isoDate start = "2016-10-05"%string ->
  isoDate now1 = "2016-10-07"%string ->
  isoDate now2 = "2016-10-06"%string ->
  isoDate c = "2016-10-05"%string -> isoDate k = "2016-10-06"%string ->
  isoDate c1 = "2016-10-05"%string -> isoDate k1 = "2016-10-06"%string ->
  isoDate c2 = "2016-10-05"%string ->
  aggregate now1 start [mkIssue c (Some k)]
  = [("2016-10-05"%string, mkDay 1 0);
     ("2016-10-06"%string, mkDay 0 1);
     ("2016-10-07"%string, mkDay 0 1)]
  /\ aggregate now2 start [mkIssue c1 (Some k1); mkIssue c2 None]
     = [("2016-10-05"%string, mkDay 2 0);
        ("2016-10-06"%string, mkDay 1 1)].
Proof.
  intros Vs V1 V2 Es E1 E2 Ec Ek Ec1 Ek1 Ec2.
  assert (Ds : day_of start = 17079)
    by (apply day_of_date; [assumption|unfold valid_day; lia|exact Es]).
  assert (D1 : day_of now1 = 17081)
    by (apply day_of_date; [assumption|unfold valid_day; lia|exact E1]).
  assert (D2 : day_of now2 = 17080)
    by (apply day_of_date; [assumption|unfold valid_day; lia|exact E2]).
  split.
  - rewrite aggregate_running, keys_initial_dates by assumption.
    unfold days_until. rewrite Ds, D1.
    change (map isoDate_of_day (zrange 17079 (Z.to_nat (17081 - 17079 + 1))))
      with ["2016-10-05"; "2016-10-06"; "2016-10-07"]%string.
    unfold running_totals, opened_on, closed_on, issuesOpened, issuesClosed.
    simpl filter. rewrite Ec, Ek. reflexivity.
  - rewrite aggregate_running, keys_initial_dates by assumption.
    unfold days_until. rewrite Ds, D2.
    change (map isoDate_of_day (zrange 17079 (Z.to_nat (17080 - 17079 + 1))))
      with ["2016-10-05"; "2016-10-06"]%string.
    unfold running_totals, opened_on, closed_on, issuesOpened, issuesClosed.
    simpl filter. rewrite Ec1, Ek1, Ec2. reflexivity.
Qed.

Lemma worked_examples_witness :
  aggregate (utc 2016 10 7) FIRST_COMMIT_DATE [closed_next_day]
  = [("2016-10-05"%string, mkDay 1 0);
     ("2016-10-06"%string, mkDay 0 1);
     ("2016-10-07"%string, mkDay 0 1)]
  /\ aggregate (at_hour 23 (utc 2016 10 6)) FIRST_COMMIT_DATE
       [closed_next_day; still_open]
     = [("2016-10-05"%string, mkDay 2 0);
        ("2016-10-06"%string, mkDay 1 1)].
Proof.
  apply (worked_examples FIRST_COMMIT_DATE (utc 2016 10 7)
           (at_hour 23 (utc 2016 10 6))
           (at_hour 9 (utc 2016 10 5)) (at_hour 17 (utc 2016 10 6))
           (at_hour 9 (utc 2016 10 5)) (at_hour 17 (utc 2016 10 6))
           (at_hour 11 (utc 2016 10 5)));
    try (unfold valid_time; vm_compute; split; discriminate);
    vm_compute; reflexivity.
Defined.

(** C4: the output has exactly one entry per calendar day from the
    start day to today: its keys are the dates of those days in order,
    no key occurs twice, there are as many entries as days, and the date
    of a day is a key exactly when the day lies in the range. *)
Theorem one_entry_per_day (now start : Z) (issues : list Issue) :
  valid_time now -> valid_time start ->
  day_of start <= day_of now ->
  let out := aggregate now start issues in
  keys out = map isoDate_of_day (days_until now start)
  /\ NoDup (keys out)
  /\ len out = day_of now - day_of start + 1
  /\ forall z, valid_day z ->
       (In (isoDate_of_day z) (keys out) <-> day_of start <= z <= day_of now).
Proof.
  intros Hn Hs R out.
  assert (K : keys out = map isoDate_of_day (days_until now start)).
  { unfold out. rewrite aggregate_running, running_totals_keys.
    apply keys_initial_dates; assumption. }
  split; [exact K|]. split; [|split].
  - rewrite K. apply date_keys_NoDup; assumption.
  - unfold len. rewrite <- (length_map fst). fold (keys out). rewrite K.
    rewrite length_map. unfold days_until. rewrite zrange_length. lia.
  - intros z Vz. rewrite K, in_map_iff. split.
    + intros (z' & E & I). apply isoDate_of_day_inj in E; auto.
      * subst z'. apply days_until_In. assumption.
      * apply (days_until_valid now start); assumption.
    + intros I. exists z. split; [reflexivity|]. apply days_until_In. assumption.
Qed.

Lemma one_entry_per_day_witness :
  let out := aggregate (utc 2016 10 7) FIRST_COMMIT_DATE [closed_next_day] in
  keys out = map isoDate_of_day (days_until (utc 2016 10 7) FIRST_COMMIT_DATE)
  /\ NoDup (keys out)
  /\ len out = day_of (utc 2016 10 7) - day_of FIRST_COMMIT_DATE + 1
  /\ forall z, valid_day z ->
       (In (isoDate_of_day z) (keys out)
        <-> day_of FIRST_COMMIT_DATE <= z <= day_of (utc 2016 10 7)).
Proof.
  apply one_entry_per_day.
  - unfold valid_time. vm_compute. split; discriminate.
  - unfold valid_time. vm_compute. split; discriminate.
  - vm_compute. discriminate.
Defined.

(** C9: for every day [d] of the range the stored totals add up to the
    number of issues created on a day of [start day, d]; [totalOpened]
    is that number minus the number of issues closed on a day of
    [start day, d]. *)
Theorem totals_count_created (now start : Z) (issues : list Issue) (d : Z) :
  valid_time now -> valid_time start ->
  Forall valid_issue issues ->
  day_of start <= d <= day_of now ->
  exists rec,
    get (isoDate_of_day d) (aggregate now start issues) = Some rec
    /\ totalOpened rec + totalClosed rec
       = count (created_within (day_of start) d) issues
    /\ totalOpened rec
       = count (created_within (day_of start) d) issues
         - count (closed_within (day_of start) d) issues.
Proof.
  intros Hn Hs V R. exists (totals_upto issues (day_of start) d).
  split; [apply record_of_day; assumption|].
  unfold totals_upto. simpl. lia.
Qed.

Lemma totals_count_created_witness :
  exists rec,
    get (isoDate_of_day 17080)
      (aggregate (utc 2016 10 7) FIRST_COMMIT_DATE
         [closed_next_day; still_open; older_issue]) = Some rec
    /\ totalOpened rec + totalClosed rec
       = count (created_within (day_of FIRST_COMMIT_DATE) 17080)
           [closed_next_day; still_open; older_issue]
    /\ totalOpened rec
       = count (created_within (day_of FIRST_COMMIT_DATE) 17080)
           [closed_next_day; still_open; older_issue]
         - count (closed_within (day_of FIRST_COMMIT_DATE) 17080)
             [closed_next_day; still_open; older_issue].
Proof.
  apply totals_count_created.
  - unfold valid_time. vm_compute. split; discriminate.
  - unfold valid_time. vm_compute. split; discriminate.
  - repeat constructor; vm_compute; discriminate.
  - vm_compute. split; discriminate.
Defined.

(** C10: the output does not depend on the order of the issue list. *)
Theorem order_irrelevant (now start : Z) (issues issues' : list Issue) :
  Permutation issues issues' ->
  aggregate now start issues = aggregate now start issues'.
Proof.
  intros P. unfold aggregate, run_loop. f_equal.
  apply fold_left_ext_state. intros st date. apply loop_body_perm. exact P.
Qed.

Lemma order_irrelevant_witness :
  aggregate (utc 2016 10 7) FIRST_COMMIT_DATE [closed_next_day; still_open]
  = aggregate (utc 2016 10 7) FIRST_COMMIT_DATE [still_open; closed_next_day].
Proof.
  apply order_irrelevant. apply perm_swap.
Defined.

End AggregatorClaims.

(** ** The Issue Fetcher *)

Section FetcherClaims.

Lemma unshift_page_rev (issuesPage : list RawItem) : forall issues,
  unshift_page issuesPage issues
  = rev (map to_issue (filter not_pull_request issuesPage)) ++ issues.
Proof.
  unfold unshift_page, not_pull_request.
  induction issuesPage as [|raw l IH]; intros issues; simpl; [reflexivity|].
  rewrite IH. destruct (pull_request raw); simpl; [reflexivity|].
  rewrite <- app_assoc. reflexivity.
Qed.

Lemma filter_idem {A : Type} (f : A -> bool) (l : list A) :
  filter f (filter f l) = filter f l.
Proof.
  induction l as [|a l IH]; simpl; [reflexivity|].
  destruct (f a) eqn:E; simpl; rewrite ?E, IH; reflexivity.
Qed.

Lemma issues_of_cons (p : list RawItem) (ps : list (list RawItem)) :
  issues_of (p :: ps)
  = issues_of ps ++ rev (map to_issue (filter not_pull_request p)).
Proof.
  unfold issues_of. simpl List.concat.
  rewrite filter_app, map_app, rev_app_distr. reflexivity.
Qed.

(** The loop under a finite ceiling [n], started at page [page]. *)
Lemma getIssues_loop_finite (upstream : list (list RawItem)) (n : Z) :
  forall page issues log,
  getIssues_loop upstream (Finite n) page issues log
  = (issues_of (firstn (Z.to_nat (n - page + 1)) (leading_pages upstream))
       ++ issues,
     log ++ zrange page
              (Nat.min (S (List.length (leading_pages upstream)))
                       (Z.to_nat (n - page + 1)))).
Proof.
  induction upstream as [|p rest IH]; intros page issues log;
    simpl getIssues_loop; unfold within;
    destruct (Z.leb_spec page n) as [L|L].
  - replace (Z.to_nat (n - page + 1)) with (S (Z.to_nat (n - page))) by lia.
    reflexivity.
  - replace (Z.to_nat (n - page + 1)) with O by lia.
    simpl. rewrite app_nil_r. reflexivity.
  - replace (Z.to_nat (n - page + 1)) with (S (Z.to_nat (n - page))) by lia.
    simpl leading_pages. destruct (len p =? 0).
    + reflexivity.
    + rewrite IH, unshift_page_rev, filter_idem.
      replace (n - (page + 1) + 1) with (n - page) by lia.
      simpl firstn. rewrite issues_of_cons, <- !app_assoc.
      reflexivity.
  - replace (Z.to_nat (n - page + 1)) with O by lia.
    rewrite Nat.min_0_r. simpl. rewrite app_nil_r. reflexivity.
Qed.

(** The loop without a ceiling. *)
Lemma getIssues_loop_infinite (upstream : list (list RawItem)) :
  forall page issues log,
  getIssues_loop upstream Infinity page issues log
  = (issues_of (leading_pages upstream) ++ issues,
     log ++ zrange page (S (List.length (leading_pages upstream)))).
Proof.
  induction upstream as [|p rest IH]; intros page issues log;
    simpl getIssues_loop.
  - reflexivity.
  - simpl leading_pages. destruct (len p =? 0).
    + reflexivity.
    + rewrite IH, unshift_page_rev, filter_idem.
      rewrite issues_of_cons, <- !app_assoc. reflexivity.
Qed.

Lemma getIssues_consumed (upstream : list (list RawItem)) (limit : option Z) :
  getIssues upstream limit = issues_of (consumed upstream limit).
Proof.
  unfold getIssues, getIssues_run, consumed.
  destruct limit as [n|]; simpl hardLimit_of.
  - rewrite getIssues_loop_finite. cbn [fst].
    replace (n - 1 + 1) with n by lia. apply app_nil_r.
  - rewrite getIssues_loop_infinite. cbn [fst]. apply app_nil_r.
Qed.

Lemma leading_pages_incl (upstream : list (list RawItem)) (p : list RawItem) :
  In p (leading_pages upstream) -> In p upstream.
Proof.
  induction upstream as [|q rest IH]; simpl; [tauto|].
  destruct (len q =? 0); simpl; tauto.
Qed.

Lemma firstn_In {A : Type} (n : nat) (l : list A) (x : A) :
  In x (firstn n l) -> In x l.
Proof.
  intros I. rewrite <- (firstn_skipn n l). apply in_or_app. tauto.
Qed.

Lemma consumed_incl (upstream : list (list RawItem)) (limit : option Z)
  (p : list RawItem) :
  In p (consumed upstream limit) -> In p upstream.
Proof.
  unfold consumed. destruct limit as [n|]; intros I.
  - apply leading_pages_incl. apply (firstn_In (Z.to_nat n)). exact I.
  - apply leading_pages_incl. exact I.
Qed.

Lemma leading_pages_same (u u' : list (list RawItem)) :
  same_but_pull_requests u u' ->
  same_but_pull_requests (leading_pages u) (leading_pages u').
Proof.
  induction 1 as [|p q u u' [E F] R IH]; simpl; [constructor|].
  rewrite <- E. destruct (len p =? 0) eqn:Z0; constructor; [|exact IH].
  split; congruence.
Qed.

Lemma firstn_same (n : nat) : forall u u',
  same_but_pull_requests u u' ->
  same_but_pull_requests (firstn n u) (firstn n u').
Proof.
  induction n as [|n IH]; intros u u' R; simpl; [constructor|].
  destruct R; constructor; auto. apply IH. assumption.
Qed.

Lemma issues_of_same (u u' : list (list RawItem)) :
  same_but_pull_requests u u' -> issues_of u = issues_of u'.
Proof.
  unfold issues_of. intros R. do 2 f_equal.
  induction R as [|p q u u' [E F] R IH]; simpl; [reflexivity|].
  rewrite !filter_app, F, IH. reflexivity.
Qed.

(** C6: the returned list holds the timestamps of the items of the
    pages gone through that are not pull requests, and nothing else;
    each returned issue stems from a raw item that is not a pull request;
    and page sequences that differ only in their pull requests give the
    same issues, hence the same totals for every day. *)
Theorem pull_requests_ignored (upstream upstream' : list (list RawItem))
  (limit : option Z) (now start : Z) :
  same_but_pull_requests upstream upstream' ->
  getIssues upstream limit = issues_of (consumed upstream limit)
  /\ (forall i, In i (getIssues upstream limit) ->
       exists raw page,
         In page upstream /\ In raw page /\ pull_request raw = false
         /\ i = to_issue raw)
  /\ getIssues upstream limit = getIssues upstream' limit
  /\ aggregate now start (getIssues upstream limit)
     = aggregate now start (getIssues upstream' limit).
Proof.
  intros R.
  assert (E : getIssues upstream limit = getIssues upstream' limit).
  { rewrite !getIssues_consumed. apply issues_of_same. unfold consumed.
    destruct limit as [n|].
    - apply firstn_same, leading_pages_same, R.
    - apply leading_pages_same, R. }
  split; [apply getIssues_consumed|]. split; [|split; [exact E|]].
  - intros i I. rewrite getIssues_consumed in I. unfold issues_of in I.
    apply in_rev in I. apply in_map_iff in I. destruct I as (raw & <- & I).
    apply filter_In in I. destruct I as [I N].
    apply in_concat in I. destruct I as (page & Hp & Hr).
    exists raw, page. split; [eapply consumed_incl; exact Hp|].
    split; [exact Hr|]. split; [|reflexivity].
    unfold not_pull_request in N.
    destruct (pull_request raw); [discriminate N | reflexivity].
  - rewrite E. reflexivity.
Qed.

Lemma pull_requests_ignored_witness :
  getIssues pages (Some 10) = issues_of (consumed pages (Some 10))
  /\ (forall i, In i (getIssues pages (Some 10)) ->
       exists raw page,
         In page pages /\ In raw page /\ pull_request raw = false
         /\ i = to_issue raw)
  /\ getIssues pages (Some 10) = getIssues pages' (Some 10)
  /\ aggregate (utc 2016 10 7) FIRST_COMMIT_DATE (getIssues pages (Some 10))
     = aggregate (utc 2016 10 7) FIRST_COMMIT_DATE (getIssues pages' (Some 10)).
Proof.
  apply pull_requests_ignored.
  unfold same_but_pull_requests, pages, pages'.
  repeat (constructor; [split; vm_compute; reflexivity|]).
  constructor.
Defined.

(** C7: under a ceiling [n] the fetcher asks for the pages 1, 2, ... up
    to the ceiling or the first empty page, whichever comes first: never
    more than [n] pages, and none after the first empty page; it returns
    the issues of the non-empty pages it went through. *)
Theorem page_ceiling (upstream : list (list RawItem)) (n : Z) :
  requested_pages upstream (Some n)
  = zrange 1 (Z.to_nat (Z.min n (first_empty_page upstream)))
  /\ len (requested_pages upstream (Some n)) <= Z.max 0 n
  /\ len (requested_pages upstream (Some n)) <= first_empty_page upstream
  /\ getIssues upstream (Some n)
     = issues_of (firstn (Z.to_nat n) (leading_pages upstream)).
Proof.
  assert (E : requested_pages upstream (Some n)
              = zrange 1 (Z.to_nat (Z.min n (first_empty_page upstream)))).
  { unfold requested_pages, getIssues_run. simpl hardLimit_of.
    rewrite getIssues_loop_finite. cbn [snd app].
    f_equal. unfold first_empty_page, len. lia. }
  split; [exact E|]. rewrite E. unfold len at 1 2. rewrite zrange_length.
  split; [lia|]. split; [unfold first_empty_page, len; lia|].
  apply (getIssues_consumed upstream (Some n)).
Qed.

End FetcherClaims.

(** ** The handler: persistence and its errors *)

Section HandlerClaims.

Lemma has_date_app (date : string) (db db' : Store) :
  has_date date (db ++ db') = has_date date db || has_date date db'.
Proof. unfold has_date. apply existsb_app. Qed.

(** A batch with a row whose date is already stored fails with P2002. *)
Lemma create_all_duplicate (rows : list (string * Day)) : forall db row,
  In row rows -> has_date (fst row) db = true ->
  create_all rows db = inl (PrismaClientKnownRequestError "P2002").
Proof.
  induction rows as [|r rows IH]; intros db row I D; [destruct I|].
  simpl. unfold create. destruct (has_date (fst r) db) eqn:Hr; [reflexivity|].
  destruct I as [->|I]; [congruence|].
  apply (IH _ row I). rewrite has_date_app, D. reflexivity.
Qed.

Lemma transaction_duplicate (rows : list (string * Day)) (db : Store)
  (row : string * Day) :
  In row rows -> has_date (fst row) db = true ->
  transaction rows db = (db, Some (PrismaClientKnownRequestError "P2002")).
Proof.
  intros I D. unfold transaction.
  rewrite (create_all_duplicate rows db row I D). reflexivity.
Qed.

(** C5: when a date of the computed batch is already stored, the bulk
    write fails as a whole: the table is left as it was and the answer is
    the duplicate-key one (400, "Already exists"), which is not the
    answer to other failures (500). *)
Theorem duplicate_date_conflict (w : World) (req : Request) (db : Store)
  (date : string) :
  method req = "POST"%string ->
  same_secret (SECRET w) (secret (body req)) = true ->
  skip_save (body req) = false ->
  In date (keys (aggregate (clock w) FIRST_COMMIT_DATE (fetched w req))) ->
  has_date date db = true ->
  handler w req db = (mkResponse 400 (Message "Already exists"), db)
  /\ fst (handler w req db) <> on_error OtherError.
Proof.
  intros M S K I D.
  assert (E : handler w req db = (mkResponse 400 (Message "Already exists"), db)).
  { unfold handler. rewrite M, S, K. simpl.
    unfold keys in I. apply in_map_iff in I. destruct I as (row & <- & I).
    unfold entries. rewrite (transaction_duplicate _ db row I D). reflexivity. }
  split; [exact E|]. rewrite E. simpl. discriminate.
Qed.

Lemma duplicate_date_conflict_witness :
  handler world (post false) stored
  = (mkResponse 400 (Message "Already exists"), stored)
  /\ fst (handler world (post false) stored) <> on_error OtherError.
Proof.
  apply (duplicate_date_conflict world (post false) stored "2016-10-06");
    vm_compute; auto.
Defined.

End HandlerClaims.

(** * Further properties *)

(** ** The Issue Fetcher: ceilings and order *)

Section FetcherMore.

Lemma issues_of_app (a b : list (list RawItem)) :
  issues_of (a ++ b) = issues_of b ++ issues_of a.
Proof.
  unfold issues_of. rewrite concat_app, filter_app, map_app, rev_app_distr.
  reflexivity.
Qed.

Lemma firstn_le_split {A : Type} (i j : nat) (l : list A) :
  (i <= j)%nat -> exists more, firstn j l = firstn i l ++ more.
Proof.
  intros L. exists (skipn i (firstn j l)).
  rewrite <- (firstn_skipn i (firstn j l)) at 1.
  rewrite firstn_firstn. rewrite Nat.min_l by assumption. reflexivity.
Qed.

(** X1: without a ceiling the fetcher asks for every page up to and
    including the first empty one and returns the issues of all the pages
    in front of it. *)
Theorem fetch_without_ceiling (upstream : list (list RawItem)) :
  getIssues upstream None = issues_of (leading_pages upstream)
  /\ requested_pages upstream None
     = zrange 1 (Z.to_nat (first_empty_page upstream)).
Proof.
  split; [apply (getIssues_consumed upstream None)|].
  unfold requested_pages, getIssues_run. simpl hardLimit_of.
  rewrite getIssues_loop_infinite. cbn [snd app]. f_equal.
  unfold first_empty_page, len. lia.
Qed.

(** X2: a ceiling of zero or less asks for no page at all and returns
    no issue; it does not mean "no ceiling". *)
Theorem ceiling_nonpositive (upstream : list (list RawItem)) (n : Z) :
  n <= 0 ->
  requested_pages upstream (Some n) = [] /\ getIssues upstream (Some n) = [].
Proof.
  intros L. unfold requested_pages, getIssues, getIssues_run.
  simpl hardLimit_of. rewrite getIssues_loop_finite.
  replace (Z.to_nat (n - 1 + 1)) with O by lia.
  rewrite Nat.min_0_r. split; reflexivity.
Qed.

Lemma ceiling_nonpositive_witness :
  requested_pages pages (Some 0) = [] /\ getIssues pages (Some 0) = [].
Proof. apply ceiling_nonpositive. lia. Defined.

(** X3: a ceiling that is not below the number of pages in front of
    the first empty page truncates nothing: the result is the one
    obtained without a ceiling. *)
Theorem ceiling_not_reached (upstream : list (list RawItem)) (n : Z) :
  len (leading_pages upstream) <= n ->
  getIssues upstream (Some n) = getIssues upstream None.
Proof.
  intros L. rewrite !getIssues_consumed. unfold consumed.
  rewrite firstn_all2; [reflexivity|]. unfold len in L. lia.
Qed.

Lemma ceiling_not_reached_witness :
  getIssues pages (Some 3) = getIssues pages None.
Proof. apply ceiling_not_reached. vm_compute. discriminate. Defined.

(** X4: raising the ceiling only adds issues in front: the list
    fetched under a ceiling is a tail of the list fetched under any
    larger ceiling, and of the list fetched without one. *)
Theorem truncation_keeps_first_pages (upstream : list (list RawItem)) (n m : Z) :
  n <= m ->
  (exists more, getIssues upstream (Some m) = more ++ getIssues upstream (Some n))
  /\ (exists more, getIssues upstream None = more ++ getIssues upstream (Some n)).
Proof.
  intros L. rewrite !getIssues_consumed. unfold consumed. split.
  - destruct (firstn_le_split (Z.to_nat n) (Z.to_nat m)
                (leading_pages upstream) ltac:(lia)) as [more E].
    exists (issues_of more). rewrite E, issues_of_app. reflexivity.
  - exists (issues_of (skipn (Z.to_nat n) (leading_pages upstream))).
    rewrite <- issues_of_app, firstn_skipn. reflexivity.
Qed.

Lemma truncation_keeps_first_pages_witness :
  (exists more, getIssues pages (Some 2) = more ++ getIssues pages (Some 1))
  /\ (exists more, getIssues pages None = more ++ getIssues pages (Some 1)).
Proof. apply truncation_keeps_first_pages. lia. Defined.

(** X5: the issues of a page come after those of all later pages, in
    reverse order of the page: fetching from a non-empty first page under
    a ceiling of at least 1 gives the issues fetched from the remaining
    pages under the ceiling less one, followed by the first page's
    issues reversed. *)
Theorem first_page_last (issuesPage : list RawItem)
  (rest : list (list RawItem)) (n : Z) :
  issuesPage <> [] -> 1 <= n ->
  getIssues (issuesPage :: rest) (Some n)
  = getIssues rest (Some (n - 1))
    ++ rev (map to_issue (filter not_pull_request issuesPage)).
Proof.
  intros N L. rewrite !getIssues_consumed. unfold consumed.
  simpl leading_pages.
  assert (E : (len issuesPage =? 0) = false).
  { apply Z.eqb_neq. unfold len. destruct issuesPage; [congruence|].
    simpl List.length. lia. }
  rewrite E. replace (Z.to_nat n) with (S (Z.to_nat (n - 1))) by lia.
  simpl firstn. apply issues_of_cons.
Qed.

Lemma first_page_last_witness :
  getIssues ([raw_issue closed_next_day; raw_pull (utc 2016 10 5)]
               :: [[raw_issue still_open]]) (Some 2)
  = getIssues [[raw_issue still_open]] (Some (2 - 1))
    ++ rev (map to_issue
              (filter not_pull_request
                 [raw_issue closed_next_day; raw_pull (utc 2016 10 5)])).
Proof. apply first_page_last; [discriminate | lia]. Defined.

End FetcherMore.

(** ** The Daily Aggregator: bounds, dates and composition *)

Section AggregatorMore.

Lemma In_keys_set {V : Type} (k k' : string) (v : V) (o : obj V) :
  In k (keys (set k' v o)) <-> k = k' \/ In k (keys o).
Proof.
  induction o as [|[k0 v0] o IH]; simpl.
  - intuition congruence.
  - destruct (String.eqb_spec k' k0) as [->|D]; simpl.
    + intuition congruence.
    + rewrite IH. intuition congruence.
Qed.

Lemma In_keys_fold_set {V : Type} (k : string) (es : list (string * V)) :
  forall o,
  In k (keys (fold_left (fun o e => set (fst e) (snd e) o) es o))
  <-> In k (keys o) \/ In k (map fst es).
Proof.
  induction es as [|[k' v] es IH]; intros o; simpl.
  - tauto.
  - rewrite IH, In_keys_set. intuition congruence.
Qed.

Lemma keys_aggregate (now start : Z) (issues : list Issue) :
  keys (aggregate now start issues) = keys (initial_dates now start).
Proof. rewrite aggregate_running. apply running_totals_keys. Qed.

Lemma In_keys_initial_dates (now start : Z) (k : string) :
  In k (keys (initial_dates now start))
  <-> exists d, In d (eachDayUntilToday now start) /\ isoDate d = k.
Proof.
  unfold initial_dates, fromEntries. rewrite In_keys_fold_set.
  rewrite map_map. simpl. rewrite in_map_iff.
  split.
  - intros [[]|(d & E & I)]. exists d. auto.
  - intros (d & I & E). right. exists d. auto.
Qed.

Lemma running_totals_ext (a b : list Issue) (ks : list string) :
  (forall k, In k ks ->
     opened_on a k = opened_on b k /\ closed_on a k = closed_on b k) ->
  forall o c, running_totals a ks o c = running_totals b ks o c.
Proof.
  induction ks as [|k ks IH]; intros E o c; simpl; [reflexivity|].
  destruct (E k (or_introl eq_refl)) as [-> ->].
  rewrite IH by (intros k' I; apply E; simpl; tauto). reflexivity.
Qed.

Lemma opened_on_app (a b : list Issue) (k : string) :
  opened_on (a ++ b) k = opened_on a k + opened_on b k.
Proof.
  unfold opened_on, issuesOpened, len.
  rewrite filter_app, length_app. lia.
Qed.

Lemma closed_on_app (a b : list Issue) (k : string) :
  closed_on (a ++ b) k = closed_on a k + closed_on b k.
Proof.
  unfold closed_on, issuesClosed, len.
  rewrite filter_app, length_app. lia.
Qed.

Lemma existsb_eqb_false (x : string) (ks : list string) (k : string) :
  existsb (String.eqb x) ks = false -> In k ks -> String.eqb x k = false.
Proof.
  intros E I. destruct (String.eqb x k) eqn:Q; [|reflexivity].
  rewrite <- E. symmetry. apply existsb_exists. exists k. auto.
Qed.

Lemma untouched_counts (extra : list Issue) (ks : list string) (k : string) :
  Forall (fun i => touches ks i = false) extra -> In k ks ->
  opened_on extra k = 0 /\ closed_on extra k = 0.
Proof.
  intros F I. unfold opened_on, closed_on, issuesOpened, issuesClosed.
  split; apply count_none; intros i Hi; rewrite Forall_forall in F;
    specialize (F i Hi); unfold touches in F;
    apply orb_false_elim in F; destruct F as [F1 F2].
  - apply (existsb_eqb_false _ ks); assumption.
  - destruct (closed_at i) as [c|]; [|reflexivity].
    apply (existsb_eqb_false _ ks); assumption.
Qed.

(** Each issue is counted on at most one date of a duplicate-free list. *)
Lemma sum_on_cons (f : string -> Z) (k : string) (ks : list string) :
  sum_on f (k :: ks) = f k + sum_on f ks.
Proof. reflexivity. Qed.

Lemma sum_indicator_le (x : string) (ks : list string) :
  NoDup ks ->
  0 <= sum_on (fun k => if String.eqb x k then 1 else 0) ks <= 1.
Proof.
  induction 1 as [|k ks N1 N2 IH]; [simpl; lia|].
  rewrite sum_on_cons.
  destruct (String.eqb_spec x k) as [->|D]; [|lia].
  assert (Z0 : sum_on (fun k0 => if String.eqb k k0 then 1 else 0) ks = 0).
  { clear IH N2. induction ks as [|k' ks IH]; [reflexivity|].
    rewrite sum_on_cons.
    destruct (String.eqb_spec k k') as [->|D]; [simpl in N1; tauto|].
    rewrite IH; [reflexivity|]. simpl in N1. tauto. }
  rewrite Z0. lia.
Qed.

Lemma sum_on_add (f g : string -> Z) (ks : list string) :
  sum_on (fun k => f k + g k) ks = sum_on f ks + sum_on g ks.
Proof.
  induction ks as [|k ks IH]; [reflexivity|].
  rewrite !sum_on_cons, IH. lia.
Qed.

Lemma sum_on_ext (f g : string -> Z) (ks : list string) :
  (forall k, f k = g k) -> sum_on f ks = sum_on g ks.
Proof.
  intros E. induction ks as [|k ks IH]; [reflexivity|].
  rewrite !sum_on_cons, E, IH. reflexivity.
Qed.

Lemma sum_opened_le (issues : list Issue) (ks : list string) :
  NoDup ks -> 0 <= sum_on (opened_on issues) ks <= len issues.
Proof.
  intros N. induction issues as [|i issues IH].
  - assert (E : sum_on (opened_on []) ks = 0).
    { clear N. induction ks as [|k ks IHk]; [reflexivity|].
      rewrite sum_on_cons, IHk. reflexivity. }
    rewrite E. unfold len. simpl. lia.
  - rewrite (sum_on_ext _
               (fun k => (if String.eqb (isoDate (created_at i)) k then 1 else 0)
                         + opened_on issues k)).
    + rewrite sum_on_add.
      pose proof (sum_indicator_le (isoDate (created_at i)) ks N).
      unfold len in *. simpl List.length. lia.
    + intros k. unfold opened_on, issuesOpened, len. simpl.
      destruct (String.eqb (isoDate (created_at i)) k); simpl List.length; lia.
Qed.

Lemma sum_closed_le (issues : list Issue) (ks : list string) :
  NoDup ks -> 0 <= sum_on (closed_on issues) ks <= len (closed_issues issues).
Proof.
  intros N. induction issues as [|i issues IH].
  - assert (E : sum_on (closed_on []) ks = 0).
    { clear N. induction ks as [|k ks IHk]; [reflexivity|].
      rewrite sum_on_cons, IHk. reflexivity. }
    rewrite E. unfold len. simpl. lia.
  - unfold closed_issues in *. simpl filter.
    destruct (closed_at i) as [c|] eqn:C.
    + rewrite (sum_on_ext _
                 (fun k => (if String.eqb (isoDate c) k then 1 else 0)
                           + closed_on issues k)).
      * rewrite sum_on_add.
        pose proof (sum_indicator_le (isoDate c) ks N).
        unfold len in *. simpl List.length. lia.
      * intros k. unfold closed_on, issuesClosed, len. simpl. rewrite C.
        destruct (String.eqb (isoDate c) k); simpl List.length; lia.
    + rewrite (sum_on_ext _ (closed_on issues)); [exact IH|].
      intros k. unfold closed_on, issuesClosed. simpl. rewrite C. reflexivity.
Qed.

(** Every record of the running totals lies between the totals before
    it and the totals of all the dates. *)
Lemma running_totals_bounds (issues : list Issue) (ks : list string) :
  forall o c date rec,
  In (date, rec) (running_totals issues ks o c) ->
  c <= totalClosed rec <= c + sum_on (closed_on issues) ks
  /\ o + c <= totalOpened rec + totalClosed rec
     <= o + c + sum_on (opened_on issues) ks.
Proof.
  induction ks as [|k ks IH]; intros o c date rec I; simpl in I; [destruct I|].
  assert (P1 : 0 <= opened_on issues k) by apply len_nonneg.
  assert (P2 : 0 <= closed_on issues k) by apply len_nonneg.
  assert (P3 : 0 <= sum_on (opened_on issues) ks
               /\ 0 <= sum_on (closed_on issues) ks).
  { clear. induction ks as [|k' ks IHk]; [simpl; lia|].
    rewrite !sum_on_cons.
    pose proof (len_nonneg (issuesOpened issues k')).
    pose proof (len_nonneg (issuesClosed issues k')).
    unfold opened_on at 1, closed_on at 1. lia. }
  rewrite !sum_on_cons. destruct I as [E|I].
  - injection E as _ <-. simpl. lia.
  - apply IH in I. lia.
Qed.

Lemma running_totals_nil (ks : list string) : forall o c,
  running_totals [] ks o c = map (fun k => (k, mkDay o c)) ks.
Proof.
  induction ks as [|k ks IH]; intros o c; simpl; [reflexivity|].
  unfold opened_on, closed_on, len. simpl.
  replace (o + 0 - 0) with o by lia. replace (c + 0) with c by lia.
  rewrite IH. reflexivity.
Qed.

(** X6: without issues every day of the range gets the record {0, 0}. *)
Theorem aggregate_no_issues (now start : Z) :
  aggregate now start [] = initial_dates now start
  /\ forall date rec,
       In (date, rec) (entries (aggregate now start [])) -> rec = mkDay 0 0.
Proof.
  assert (E : aggregate now start [] = initial_dates now start).
  { rewrite aggregate_running, running_totals_nil.
    symmetry. apply initial_dates_zero. }
  split; [exact E|]. intros date rec I. unfold entries in I.
  rewrite E, initial_dates_zero in I. apply in_map_iff in I.
  destruct I as (k & Q & _). injection Q as _ <-. reflexivity.
Qed.

(** X7: whatever the issues and the dates, every record has
    [0 <= totalClosed <= number of closed issues] and
    [0 <= totalOpened + totalClosed <= number of issues]; so
    [totalOpened] lies between minus the number of closed issues and the
    number of issues. *)
Theorem totals_bounds (now start : Z) (issues : list Issue)
  (date : string) (rec : Day) :
  In (date, rec) (entries (aggregate now start issues)) ->
  0 <= totalClosed rec <= len (closed_issues issues)
  /\ 0 <= totalOpened rec + totalClosed rec <= len issues
  /\ - len (closed_issues issues) <= totalOpened rec <= len issues.
Proof.
  unfold entries. rewrite aggregate_running. intros I.
  apply running_totals_bounds in I.
  pose proof (sum_opened_le issues _ (initial_dates_NoDup now start)).
  pose proof (sum_closed_le issues _ (initial_dates_NoDup now start)).
  lia.
Qed.

Lemma totals_bounds_witness :
  0 <= totalClosed (mkDay (-1) 1) <= len (closed_issues [older_issue])
  /\ 0 <= totalOpened (mkDay (-1) 1) + totalClosed (mkDay (-1) 1)
     <= len [older_issue]
  /\ - len (closed_issues [older_issue]) <= totalOpened (mkDay (-1) 1)
     <= len [older_issue].
Proof.
  apply (totals_bounds (utc 2016 10 7) FIRST_COMMIT_DATE [older_issue]
           "2016-10-06"%string).
  vm_compute. tauto.
Defined.

(** X8: the dates of the output do not depend on the issues: they are
    the dates of the days returned by [eachDayUntilToday], each of them
    once, and the loop neither adds nor drops a date. *)
Theorem output_dates (now start : Z) (issues : list Issue) :
  keys (aggregate now start issues) = keys (initial_dates now start)
  /\ NoDup (keys (aggregate now start issues))
  /\ forall k,
       In k (keys (aggregate now start issues))
       <-> exists d, In d (eachDayUntilToday now start) /\ isoDate d = k.
Proof.
  rewrite keys_aggregate. split; [reflexivity|].
  split; [apply initial_dates_NoDup|]. apply In_keys_initial_dates.
Qed.

(** X9: issues that were neither created nor closed on a date of the
    range change nothing. *)
Theorem issues_off_range_ignored (now start : Z) (extra issues : list Issue) :
  Forall (fun i => touches (keys (initial_dates now start)) i = false) extra ->
  aggregate now start (extra ++ issues) = aggregate now start issues.
Proof.
  intros F. rewrite !aggregate_running. apply running_totals_ext.
  intros k I. rewrite opened_on_app, closed_on_app.
  destruct (untouched_counts extra _ k F I) as [-> ->]. split; reflexivity.
Qed.

Lemma issues_off_range_ignored_witness :
  aggregate (utc 2016 10 7) FIRST_COMMIT_DATE
    ([ancient_issue] ++ [closed_next_day; still_open])
  = aggregate (utc 2016 10 7) FIRST_COMMIT_DATE [closed_next_day; still_open].
Proof.
  apply issues_off_range_ignored. repeat constructor.
Defined.

Lemma get_running_add (a b : list Issue) (ks : list string) (k : string) :
  forall o1 c1 o2 c2,
  get k (running_totals (a ++ b) ks (o1 + o2) (c1 + c2))
  = match get k (running_totals a ks o1 c1),
          get k (running_totals b ks o2 c2) with
    | Some r1, Some r2 => Some (add_days r1 r2)
    | _, _ => None
    end.
Proof.
  induction ks as [|k' ks IH]; intros o1 c1 o2 c2; simpl; [reflexivity|].
  rewrite opened_on_app, closed_on_app.
  destruct (String.eqb k k').
  - unfold add_days. simpl. f_equal. f_equal; lia.
  - rewrite <- IH. f_equal. f_equal; lia.
Qed.

(** X10: aggregation is additive in the issue collection: the record
    of a date for two collections put together is the sum of the records
    of that date for each of them. *)
Theorem aggregate_app (now start : Z) (a b : list Issue) (date : string) :
  get date (aggregate now start (a ++ b))
  = match get date (aggregate now start a), get date (aggregate now start b) with
    | Some r1, Some r2 => Some (add_days r1 r2)
    | _, _ => None
    end.
Proof.
  rewrite !aggregate_running. apply (get_running_add a b _ date 0 0 0 0).
Qed.

End AggregatorMore.

(** ** The two endpoints and the table *)

Section EndpointsMore.

Lemma has_date_In (date : string) (db : Store) :
  has_date date db = true <-> In date (map fst db).
Proof.
  unfold has_date. rewrite existsb_exists, in_map_iff. split.
  - intros ([k v] & I & E). apply String.eqb_eq in E. exists (k, v). auto.
  - intros ([k v] & E & I). exists (k, v). split; [exact I|].
    apply String.eqb_eq. exact E.
Qed.

Lemma has_date_not_In (date : string) (db : Store) :
  has_date date db = false <-> ~ In date (map fst db).
Proof.
  rewrite <- has_date_In. destruct (has_date date db); intuition congruence.
Qed.

Lemma create_all_inr (rows : list (string * Day)) : forall db db',
  create_all rows db = inr db' -> db' = db ++ rows.
Proof.
  induction rows as [|r rows IH]; intros db db'; simpl.
  - intros E. injection E as <-. symmetry. apply app_nil_r.
  - unfold create. destruct (has_date (fst r) db); [discriminate|].
    intros E. apply IH in E. rewrite E, <- app_assoc. reflexivity.
Qed.

Lemma create_all_fresh (rows : list (string * Day)) : forall db,
  NoDup (map fst rows) ->
  (forall date, In date (map fst rows) -> has_date date db = false) ->
  create_all rows db = inr (db ++ rows).
Proof.
  induction rows as [|r rows IH]; intros db N F; simpl.
  - rewrite app_nil_r. reflexivity.
  - inversion N as [|? ? N1 N2]; subst.
    unfold create. rewrite (F (fst r)) by (simpl; tauto).
    rewrite IH; [rewrite <- app_assoc; reflexivity|assumption|].
    intros date I. rewrite has_date_app, (F date) by (simpl; tauto).
    simpl. rewrite orb_false_r. apply String.eqb_neq. congruence.
Qed.

Lemma create_NoDup (row : string * Day) (db db' : Store) :
  NoDup (map fst db) -> create row db = inr db' -> NoDup (map fst db').
Proof.
  unfold create. intros N. destruct (has_date (fst row) db) eqn:H;
    [discriminate|].
  intros E. injection E as <-. rewrite map_app. simpl.
  apply has_date_not_In in H.
  apply NoDup_app; [assumption|repeat constructor; simpl; tauto|].
  intros x Hx [<-|[]]. contradiction.
Qed.

Lemma create_all_NoDup (rows : list (string * Day)) : forall db db',
  NoDup (map fst db) -> create_all rows db = inr db' -> NoDup (map fst db').
Proof.
  induction rows as [|r rows IH]; intros db db' N; simpl.
  - intros E. injection E as <-. assumption.
  - destruct (create r db) as [e|db1] eqn:C; [discriminate|].
    apply IH. apply (create_NoDup r db); assumption.
Qed.

Lemma aggregate_keys_NoDup (now start : Z) (issues : list Issue) :
  NoDup (keys (aggregate now start issues)).
Proof. rewrite keys_aggregate. apply initial_dates_NoDup. Qed.

Lemma day_in_range (now start z : Z) (issues : list Issue) :
  day_of start <= z <= day_of now ->
  In (isoDate_of_day z) (keys (aggregate now start issues)).
Proof.
  intros R. rewrite keys_aggregate. apply In_keys_initial_dates.
  exists (z * msPerDay). split.
  - unfold eachDayUntilToday. apply (in_map (fun d => d * msPerDay)).
    apply days_until_In. exact R.
  - unfold isoDate. rewrite day_of_midnight. reflexivity.
Qed.

(** X12: the table changes only in a run that saves and succeeds: a
    run that answers anything but 200, or that is told to skip the save,
    leaves the table as it was. *)
Theorem rejected_backfill_leaves_table (w : World) (req : Request) (db : Store) :
  status (fst (handler w req db)) <> 200 \/ skip_save (body req) = true ->
  snd (handler w req db) = db.
Proof.
  unfold handler.
  destruct (negb (String.eqb (method req) "POST")); [reflexivity|].
  destruct (negb (same_secret (SECRET w) (secret (body req)))); [reflexivity|].
  destruct (skip_save (body req)); [reflexivity|].
  unfold transaction.
  destruct (create_all _ db) as [e|db']; simpl; [reflexivity|].
  intros [N|N]; [contradiction|discriminate].
Qed.

Lemma rejected_backfill_leaves_table_witness :
  snd (handler world (post false) stored) = stored.
Proof.
  apply rejected_backfill_leaves_table. left. vm_compute. discriminate.
Defined.

(** X13: the backfill keeps the dates of the table unique. *)
Theorem backfill_keeps_dates_unique (w : World) (req : Request) (db : Store) :
  NoDup (map fst db) -> NoDup (map fst (snd (handler w req db))).
Proof.
  intros N. unfold handler.
  destruct (negb (String.eqb (method req) "POST")); [exact N|].
  destruct (negb (same_secret (SECRET w) (secret (body req)))); [exact N|].
  destruct (skip_save (body req)); [exact N|].
  unfold transaction.
  destruct (create_all _ db) as [e|db'] eqn:C; simpl; [exact N|].
  apply (create_all_NoDup _ db db' N C).
Qed.

Lemma backfill_keeps_dates_unique_witness :
  NoDup (map fst (snd (handler world (post false) []))).
Proof. apply backfill_keeps_dates_unique. constructor. Defined.

(** X15: the mapping is only given out, and the table only changed,
    for a POST whose secret equals the configured one. *)
Theorem backfill_needs_secret (w : World) (req : Request) (db : Store) :
  (exists d, payload (fst (handler w req db)) = Dates d)
  \/ snd (handler w req db) <> db ->
  method req = "POST"%string
  /\ same_secret (SECRET w) (secret (body req)) = true.
Proof.
  unfold handler.
  destruct (String.eqb_spec (method req) "POST") as [M|M]; simpl.
  - destruct (same_secret (SECRET w) (secret (body req))); simpl; [tauto|].
    intros [[d E]|N]; [discriminate|contradiction].
  - intros [[d E]|N]; [discriminate|contradiction].
Qed.

Lemma backfill_needs_secret_witness :
  method (post true) = "POST"%string
  /\ same_secret (SECRET world) (secret (body (post true))) = true.
Proof.
  apply (backfill_needs_secret world (post true) stored).
  left. eexists. vm_compute. reflexivity.
Defined.

End EndpointsMore.

(** ** The snapshot endpoint *)

Section SnapshotMore.

(** A snapshot run that answers 200 has appended its row. *)
Lemma snapshot_saved (pw : Populate.World) (req : Request) (db : Store) :
  Populate.status (fst (Populate.handler pw req db)) = 200 ->
  exists data,
    Populate.graphql pw = Some data
    /\ snd (Populate.handler pw req db) = db ++ [Populate.snapshot_row pw data].
Proof.
  unfold Populate.handler.
  destruct (negb (String.eqb (method req) "POST")); [discriminate|].
  destruct (negb (same_secret (Populate.SECRET pw) (secret (body req))));
    [discriminate|].
  destruct (Populate.graphql pw) as [data|]; [|discriminate].
  unfold create.
  destruct (has_date (fst (Populate.snapshot_row pw data)) db); simpl;
    [discriminate|].
  intros _. exists data. auto.
Qed.



(** An authorised POST, when the query succeeds and today's date
    is not stored yet, appends exactly one row, today's date with the two
    totals of the tracker, and answers with that row. *)
Theorem snapshot_writes_today (pw : Populate.World) (req : Request)
  (db : Store) (data : Populate.TotalCountResult) :
  method req = "POST"%string ->
  same_secret (Populate.SECRET pw) (secret (body req)) = true ->
  Populate.graphql pw = Some data ->
  has_date (isoDate (Populate.clock pw)) db = false ->
  Populate.handler pw req db
  = (Populate.mkResponse 200
       (Populate.Created (isoDate (Populate.clock pw))
          (mkDay (Populate.totalOpened_count data)
                 (Populate.totalClosed_count data))),
     db ++ [(isoDate (Populate.clock pw),
             mkDay (Populate.totalOpened_count data)
                   (Populate.totalClosed_count data))]).
Proof.
  intros M S G H. unfold Populate.handler. rewrite M, S, G. simpl.
  unfold create. simpl. rewrite H. reflexivity.
Qed.

Lemma snapshot_writes_today_witness :
  Populate.handler snapshot_world (post false) stored
  = (Populate.mkResponse 200
       (Populate.Created (isoDate (Populate.clock snapshot_world))
          (mkDay 12 30)),
     stored ++ [(isoDate (Populate.clock snapshot_world), mkDay 12 30)]).
Proof.
  apply (snapshot_writes_today snapshot_world (post false) stored
           (Populate.mkTotalCount 12 30)); reflexivity.
Defined.





(** X19: the snapshot keeps the dates of the table unique, and a run
    that answers anything but 200 (wrong method, wrong secret, failed
    query, date already stored) leaves the table as it was. *)
Theorem snapshot_table_invariants (pw : Populate.World) (req : Request)
  (db : Store) :
  NoDup (map fst db) ->
  NoDup (map fst (snd (Populate.handler pw req db)))
  /\ (Populate.status (fst (Populate.handler pw req db)) <> 200 ->
      snd (Populate.handler pw req db) = db).
Proof.
  intros N. unfold Populate.handler.
  destruct (negb (String.eqb (method req) "POST")); [auto|].
  destruct (negb (same_secret (Populate.SECRET pw) (secret (body req))));
    [auto|].
  destruct (Populate.graphql pw) as [data|]; [|auto].
  destruct (create (Populate.snapshot_row pw data) db) as [e|db'] eqn:C;
    simpl; [auto|].
  split; [apply (create_NoDup _ db db' N C)|]. intros F. contradiction.
Qed.

Lemma snapshot_table_invariants_witness :
  NoDup (map fst (snd (Populate.handler snapshot_world (post false) stored)))
  /\ (Populate.status (fst (Populate.handler snapshot_world (post false) stored))
      <> 200 ->
      snd (Populate.handler snapshot_world (post false) stored) = stored).
Proof.
  apply snapshot_table_invariants. repeat constructor; simpl; tauto.
Defined.

End SnapshotMore.

(** ** The history endpoint with its failure paths *)

Section FailureMore.

(** The aggregation looks at the clock and at the start date only
    through their days. *)
Lemma aggregate_same_days (now now' start start' : Z) (issues : list Issue) :
  day_of now = day_of now' -> day_of start = day_of start' ->
  aggregate now start issues = aggregate now' start' issues.
Proof.
  intros N S. unfold aggregate, initial_dates, eachDayUntilToday, days_until.
  rewrite N, S. reflexivity.
Qed.

Lemma within_later (page k : Z) (hardLimit : Limit) :
  0 <= k -> within page hardLimit = false -> within (page + k) hardLimit = false.
Proof.
  destruct hardLimit as [n|]; simpl; [|discriminate].
  intros K W. apply Z.leb_gt in W. apply Z.leb_gt. lia.
Qed.

Lemma len_cons {A : Type} (x : A) (xs : list A) : len (x :: xs) = 1 + len xs.
Proof. unfold len. simpl List.length. lia. Qed.

(** The loop fails exactly when it gets to a rejected request;
    otherwise it is the loop over the pages served in front of it. *)
Lemma getIssues_loop_outcome (upstream : list (option (list RawItem)))
  (hardLimit : Limit) : forall page issues log,
  fst (Fallible.getIssues_loop upstream hardLimit page issues log)
  = if rejects upstream && all_nonempty (answered upstream)
       && within (page + len (answered upstream)) hardLimit
    then inl OtherError
    else inr (fst (Fetcher.getIssues_loop (answered upstream) hardLimit
                     page issues log)).
Proof.
  induction upstream as [|[p|] rest IH]; intros page issues log.
  - simpl. destruct (within page hardLimit); reflexivity.
  - simpl Fallible.getIssues_loop. simpl answered. simpl Fetcher.getIssues_loop.
    change (rejects (Some p :: rest)) with (rejects rest).
    change (all_nonempty (p :: answered rest))
      with (negb (len p =? 0) && all_nonempty (answered rest)).
    rewrite len_cons.
    destruct (within page hardLimit) eqn:W.
    + destruct (len p =? 0) eqn:E; simpl negb.
      * rewrite andb_false_r. reflexivity.
      * rewrite IH. rewrite andb_true_l.
        replace (page + 1 + len (answered rest))
          with (page + (1 + len (answered rest))) by lia.
        reflexivity.
    + rewrite (within_later page (1 + len (answered rest)) hardLimit)
        by (try assumption; pose proof (len_nonneg (answered rest)); lia).
      rewrite andb_false_r. reflexivity.
  - simpl Fallible.getIssues_loop. simpl answered. simpl rejects.
    simpl all_nonempty. unfold len at 1. simpl List.length.
    replace (page + Z.of_nat 0) with page by lia. simpl Fetcher.getIssues_loop.
    destruct (within page hardLimit); reflexivity.
Qed.

Lemma getIssues_outcome (upstream : list (option (list RawItem)))
  (hardLimitPage : option Z) :
  Fallible.getIssues upstream hardLimitPage
  = if rejection_reached upstream hardLimitPage then inl OtherError
    else inr (Fetcher.getIssues (answered upstream) hardLimitPage).
Proof.
  unfold Fallible.getIssues, rejection_reached, Fetcher.getIssues,
    Fetcher.getIssues_run.
  rewrite getIssues_loop_outcome.
  replace (1 + len (answered upstream)) with (len (answered upstream) + 1)
    by lia.
  reflexivity.
Qed.

Lemma fetch_error (w : Fallible.World) (req : Request) (e : Exn) :
  Fallible.fetch w req = inl e -> e = OtherError.
Proof.
  unfold Fallible.fetch. rewrite getIssues_outcome.
  destruct (rejection_reached _ _); intros E; [|discriminate].
  injection E as <-. reflexivity.
Qed.

Lemma answered_served (upstream : list (list RawItem)) :
  answered (map Some upstream) = upstream
  /\ rejects (map Some upstream) = false.
Proof.
  induction upstream as [|p rest [IH1 IH2]]; simpl; [auto|].
  rewrite IH1. auto.
Qed.

(** With every request answered and the datastore reachable the
    handler is the one without failure paths. *)
Lemma handler_healthy (w : History.World) (req : Request) (db : Store) :
  Fallible.handler (Fallible.healthy w) req db = History.handler w req db.
Proof.
  unfold Fallible.handler, History.handler. simpl.
  destruct (negb (String.eqb (method req) "POST")); [reflexivity|].
  destruct (negb (same_secret (History.SECRET w) (secret (body req))));
    [reflexivity|].
  unfold Fallible.fetch, History.fetched. simpl.
  rewrite getIssues_outcome. unfold rejection_reached.
  destruct (answered_served
              (History.listForRepo w (nullish (owner (body req)) "vercel"%string)
                 (nullish (repo (body req)) "next.js"%string))) as [-> ->].
  simpl. reflexivity.
Qed.

(** A run that saves and answers 200 has fetched its issues and
    appended its rows. *)
Lemma saved_run (w : Fallible.World) (req : Request) (db : Store) :
  status (fst (Fallible.handler w req db)) = 200 ->
  skip_save (body req) = false ->
  exists issues,
    Fallible.fetch w req = inr issues
    /\ snd (Fallible.handler w req db)
       = db ++ entries (aggregate (Fallible.clock w) FIRST_COMMIT_DATE issues).
Proof.
  unfold Fallible.handler. intros S K. revert S. rewrite K.
  destruct (negb (String.eqb (method req) "POST")); [discriminate|].
  destruct (negb (same_secret (Fallible.SECRET w) (secret (body req))));
    [discriminate|].
  destruct (Fallible.fetch w req) as [e|issues] eqn:F.
  - rewrite (fetch_error w req e F). discriminate.
  - unfold Fallible.transaction, Gateway.transaction.
    destruct (Fallible.datastore_up w); [|discriminate].
    destruct (create_all _ db) as [e|db'] eqn:C; simpl.
    + destruct e as [code|]; simpl; [|discriminate].
      destruct (String.eqb code "P2002"); discriminate.
    + intros _. exists issues. apply create_all_inr in C. auto.
Qed.

(** A saving run when the date of a day of its range is stored. *)
Lemma saving_run_conflict (w : Fallible.World) (req : Request) (db : Store)
  (z : Z) :
  method req = "POST"%string ->
  same_secret (Fallible.SECRET w) (secret (body req)) = true ->
  skip_save (body req) = false ->
  day_of FIRST_COMMIT_DATE <= z <= day_of (Fallible.clock w) ->
  has_date (isoDate_of_day z) db = true ->
  Fallible.handler w req db = (conflict_answer w req, db).
Proof.
  intros M S K R H. unfold Fallible.handler, conflict_answer.
  rewrite M, S, K. simpl.
  destruct (Fallible.fetch w req) as [e|issues] eqn:F.
  - rewrite (fetch_error w req e F). reflexivity.
  - unfold Fallible.transaction.
    destruct (Fallible.datastore_up w); [|reflexivity].
    pose proof (day_in_range (Fallible.clock w) FIRST_COMMIT_DATE z issues R)
      as I.
    unfold keys in I. apply in_map_iff in I. destruct I as (row & Q & I).
    unfold entries.
    rewrite (transaction_duplicate _ db row I); [reflexivity|].
    rewrite Q. exact H.
Qed.

(** C8: the Daily Aggregator is a function of the issue collection,
    the day of the start date and the day of the clock ("today") alone:
    two runs on the same issues whose start dates fall on the same day and
    whose clocks fall on the same day, at whatever times of that day, give
    the same mapping; and two runs of the handler that answer 200 on the
    same issues with clocks on the same day answer with that same mapping,
    whatever the table holds and whether or not they save. *)
Theorem aggregation_deterministic (now now' start start' : Z)
  (issues : list Issue) :
  day_of now = day_of now' ->
  day_of start = day_of start' ->
  aggregate now start issues = aggregate now' start' issues
  /\ forall (w1 w2 : Fallible.World) (req1 req2 : Request) (db1 db2 : Store),
       Fallible.clock w1 = now -> Fallible.clock w2 = now' ->
       Fallible.fetch w1 req1 = inr issues ->
       Fallible.fetch w2 req2 = inr issues ->
       status (fst (Fallible.handler w1 req1 db1)) = 200 ->
       status (fst (Fallible.handler w2 req2 db2)) = 200 ->
       payload (fst (Fallible.handler w1 req1 db1))
       = Dates (aggregate now FIRST_COMMIT_DATE issues)
       /\ payload (fst (Fallible.handler w1 req1 db1))
          = payload (fst (Fallible.handler w2 req2 db2)).
Proof.
  intros N S. split; [apply aggregate_same_days; assumption|].
  assert (P : forall w req db t,
             Fallible.clock w = t ->
             Fallible.fetch w req = inr issues ->
             status (fst (Fallible.handler w req db)) = 200 ->
             payload (fst (Fallible.handler w req db))
             = Dates (aggregate t FIRST_COMMIT_DATE issues)).
  { intros w req db t C F. unfold Fallible.handler. rewrite F, C.
    destruct (negb (String.eqb (method req) "POST")); [discriminate|].
    destruct (negb (same_secret (Fallible.SECRET w) (secret (body req))));
      [discriminate|].
    destruct (skip_save (body req)); [reflexivity|].
    destruct (Fallible.transaction w _ db) as [db' [e|]]; [|reflexivity].
    destruct e as [code|]; simpl; [|discriminate].
    destruct (String.eqb code "P2002"); discriminate. }
  intros w1 w2 req1 req2 db1 db2 C1 C2 F1 F2 S1 S2.
  rewrite (P w1 req1 db1 now C1 F1 S1), (P w2 req2 db2 now' C2 F2 S2).
  split; [reflexivity|]. f_equal.
  apply aggregate_same_days; [assumption|reflexivity].
Qed.

Lemma aggregation_deterministic_witness :
  aggregate (at_hour 8 (utc 2016 10 7)) FIRST_COMMIT_DATE
    [closed_next_day; still_open]
  = aggregate (at_hour 20 (utc 2016 10 7)) (at_hour 5 FIRST_COMMIT_DATE)
      [closed_next_day; still_open]
  /\ forall (w1 w2 : Fallible.World) (req1 req2 : Request) (db1 db2 : Store),
       Fallible.clock w1 = at_hour 8 (utc 2016 10 7) ->
       Fallible.clock w2 = at_hour 20 (utc 2016 10 7) ->
       Fallible.fetch w1 req1 = inr [closed_next_day; still_open] ->
       Fallible.fetch w2 req2 = inr [closed_next_day; still_open] ->
       status (fst (Fallible.handler w1 req1 db1)) = 200 ->
       status (fst (Fallible.handler w2 req2 db2)) = 200 ->
       payload (fst (Fallible.handler w1 req1 db1))
       = Dates (aggregate (at_hour 8 (utc 2016 10 7)) FIRST_COMMIT_DATE
                  [closed_next_day; still_open])
       /\ payload (fst (Fallible.handler w1 req1 db1))
          = payload (fst (Fallible.handler w2 req2 db2)).
Proof.
  apply aggregation_deterministic; vm_compute; reflexivity.
Defined.

(** X11: an authorised POST that is to save, when every page request
    it makes is answered, the datastore can be reached and none of the
    computed dates is stored yet, answers 200 with the mapping and appends
    one row per day to the table, in the order of the mapping. *)
Theorem backfill_saves_all_days (w : Fallible.World) (req : Request)
  (db : Store) (issues : list Issue) :
  method req = "POST"%string ->
  same_secret (Fallible.SECRET w) (secret (body req)) = true ->
  skip_save (body req) = false ->
  Fallible.fetch w req = inr issues ->
  Fallible.datastore_up w = true ->
  (forall date,
     In date (keys (aggregate (Fallible.clock w) FIRST_COMMIT_DATE issues)) ->
     has_date date db = false) ->
  Fallible.handler w req db
  = (mkResponse 200
       (Dates (aggregate (Fallible.clock w) FIRST_COMMIT_DATE issues)),
     db ++ entries (aggregate (Fallible.clock w) FIRST_COMMIT_DATE issues)).
Proof.
  intros M S K F U N. unfold Fallible.handler. rewrite M, S, K, F. simpl.
  unfold Fallible.transaction, Gateway.transaction, entries.
  rewrite U, create_all_fresh.
  - reflexivity.
  - apply aggregate_keys_NoDup.
  - exact N.
Qed.

Lemma backfill_saves_all_days_witness :
  Fallible.handler served_world (post false) old_table
  = (mkResponse 200
       (Dates (aggregate (Fallible.clock served_world) FIRST_COMMIT_DATE
                 [closed_next_day])),
     old_table
     ++ entries (aggregate (Fallible.clock served_world) FIRST_COMMIT_DATE
                   [closed_next_day])).
Proof.
  apply backfill_saves_all_days; try reflexivity.
  intros date I. vm_compute in I.
  repeat (destruct I as [<-|I]; [reflexivity|]). destruct I.
Defined.

(** X14: the backfill cannot be repeated: once a run has saved (the
    clock being on or after the day of the first commit), no later saving
    run answers 200 or changes the table: it answers 400 "Already exists"
    when its page requests are answered and the datastore can be reached,
    and 500 when a page request is rejected or the datastore cannot be
    reached. *)
Theorem second_backfill_conflicts (w1 w2 : Fallible.World)
  (req1 req2 : Request) (db : Store) :
  day_of FIRST_COMMIT_DATE <= day_of (Fallible.clock w1) ->
  day_of FIRST_COMMIT_DATE <= day_of (Fallible.clock w2) ->
  status (fst (Fallible.handler w1 req1 db)) = 200 ->
  skip_save (body req1) = false ->
  method req2 = "POST"%string ->
  same_secret (Fallible.SECRET w2) (secret (body req2)) = true ->
  skip_save (body req2) = false ->
  Fallible.handler w2 req2 (snd (Fallible.handler w1 req1 db))
  = (conflict_answer w2 req2, snd (Fallible.handler w1 req1 db)).
Proof.
  intros R1 R2 S1 K1 M2 A2 K2.
  apply (saving_run_conflict w2 req2 _ (day_of FIRST_COMMIT_DATE) M2 A2 K2);
    [lia|].
  destruct (saved_run w1 req1 db S1 K1) as (issues & _ & ->).
  rewrite has_date_app. apply orb_true_iff. right.
  apply has_date_In. unfold entries.
  apply (day_in_range (Fallible.clock w1) FIRST_COMMIT_DATE). lia.
Qed.

Lemma second_backfill_conflicts_witness :
  Fallible.handler flaky_world (post false)
    (snd (Fallible.handler served_world (post false) old_table))
  = (conflict_answer flaky_world (post false),
     snd (Fallible.handler served_world (post false) old_table)).
Proof.
  apply second_backfill_conflicts; vm_compute; try reflexivity; discriminate.
Defined.

(** X18: after a snapshot has been stored on a day on or after the day
    of the first commit, no saving backfill run whose clock is on that day
    or later answers 200 or changes the table: it answers 400 "Already
    exists" when its page requests are answered and the datastore can be
    reached, and 500 when a page request is rejected or the datastore
    cannot be reached. *)
Theorem backfill_after_snapshot_conflicts (pw : Populate.World)
  (w : Fallible.World) (req1 req2 : Request) (db : Store) :
  Populate.status (fst (Populate.handler pw req1 db)) = 200 ->
  day_of FIRST_COMMIT_DATE <= day_of (Populate.clock pw)
    <= day_of (Fallible.clock w) ->
  method req2 = "POST"%string ->
  same_secret (Fallible.SECRET w) (secret (body req2)) = true ->
  skip_save (body req2) = false ->
  Fallible.handler w req2 (snd (Populate.handler pw req1 db))
  = (conflict_answer w req2, snd (Populate.handler pw req1 db)).
Proof.
  intros S1 R M S K.
  apply (saving_run_conflict w req2 _ (day_of (Populate.clock pw)) M S K R).
  destruct (snapshot_saved pw req1 db S1) as (data & _ & ->).
  rewrite has_date_app. apply orb_true_iff. right.
  unfold Populate.snapshot_row, has_date, isoDate. simpl.
  rewrite String.eqb_refl. reflexivity.
Qed.

Lemma backfill_after_snapshot_conflicts_witness :
  Fallible.handler served_world (post false)
    (snd (Populate.handler snapshot_world (post false) old_table))
  = (conflict_answer served_world (post false),
     snd (Populate.handler snapshot_world (post false) old_table)).
Proof.
  apply backfill_after_snapshot_conflicts;
    vm_compute; try reflexivity; split; discriminate.
Defined.

(** X20: [getIssues] fails exactly when it gets to a rejected page
    request, that is when every page in front of the first rejected one
    is non-empty and its number is within the ceiling; a rejection behind
    the first empty page or beyond the ceiling goes unnoticed.  When it
    does not fail it returns what it returns for the pages served in front
    of the rejected request. *)
Theorem fetch_outcome (upstream : list (option (list RawItem)))
  (hardLimitPage : option Z) :
  Fallible.getIssues upstream hardLimitPage
  = if rejection_reached upstream hardLimitPage then inl OtherError
    else inr (Fetcher.getIssues (answered upstream) hardLimitPage).
Proof. apply getIssues_outcome. Qed.

(** X21: when an authorised POST gets to a rejected page request the
    handler answers 500 "Internal server error" and leaves the table as it
    was, whether or not it was to save; the issues of the pages fetched
    before are dropped. *)
Theorem rejected_request_answers_500 (w : Fallible.World) (req : Request)
  (db : Store) :
  method req = "POST"%string ->
  same_secret (Fallible.SECRET w) (secret (body req)) = true ->
  rejection_reached
    (Fallible.listForRepo w (nullish (owner (body req)) "vercel"%string)
       (nullish (repo (body req)) "next.js"%string))
    (Some (nullish (page_limit (body req)) 2)) = true ->
  Fallible.handler w req db = (internal_error, db).
Proof.
  intros M S R. unfold Fallible.handler, Fallible.fetch.
  rewrite M, S, getIssues_outcome, R. reflexivity.
Qed.

Lemma rejected_request_answers_500_witness :
  Fallible.handler flaky_world (post false) old_table
  = (internal_error, old_table).
Proof.
  apply rejected_request_answers_500; reflexivity.
Defined.

End FailureMore.
